(** * NewsBot: ingestion, deduplication, ranking and scheduling

    A shallow embedding of the core of NewsBot (database/models.py,
    database/db_manager.py, parser/ranking.py, parser/rss_parser.py,
    bot/scheduler.py, config/settings.py, config/sources.py, and parts of
    utils/formatter.py, parser/html_parser.py and bot/handlers.py) and the
    properties its specification states about it, followed by further
    properties read off the code.

    Conventions.
    - A Python [str] is represented by the Rocq [string] holding its UTF-8
      encoding, so [s.encode('utf-8')] is the identity on the representation
      and [+] on [str] is [++].  Operations that look at code points
      ([str.lower], the regular expression engine) go through [code_points].
    - A Python [float] is a primitive binary64 float; arithmetic and
      comparisons are the IEEE 754 ones Python uses.
    - A Python [int] is a [Z]; a [timedelta] is its number of microseconds.
    - Code that may raise returns a [result]: the value, or the exception.
    - What the repository takes from outside (the Unicode database behind
      [str.lower] and [\w], feedparser, BeautifulSoup, dateutil, the network,
      the clock) is a parameter of the model.

    The first part is the model, module by module as in the sources; the
    second part states and proves the properties. *)

From Stdlib Require Import ZArith List String Ascii Bool Lia Floats Sorted Permutation.
From stdpp Require Import gmap strings list fin_maps.

Set Warnings "-inexact-float".

Local Open Scope string_scope.
Local Open Scope Z_scope.

(** ** Exceptions

    Every exception the model raises is a subclass of Python's [Exception]. *)

Inductive exn :=
| IntegrityError | OperationalError | TimeoutError | ClientError
| ValueError | TypeError | OverflowError | RuntimeError.

Inductive result (A : Type) :=
| Ok (a : A)
| Raise (e : exn).

Arguments Ok {A} a.
Arguments Raise {A} e.

Definition bind {A B} (r : result A) (k : A -> result B) : result B :=
  match r with
  | Ok a => k a
  | Raise e => Raise e
  end.

Notation "'let*' x := r 'in' k" := (bind r (fun x => k))
  (at level 10, x name, r at level 100, k at level 200).

(** The bytes of a [str] (its UTF-8 encoding). *)
Definition bytes_of_string (s : string) : list Z :=
  List.map (fun c => Z.of_N (N_of_ascii c)) (list_ascii_of_string s).

(** ** hashlib.sha256 (FIPS 180-4), on byte strings *)

Module SHA256.

Definition mask32 : Z := 0xFFFFFFFF.
Definition w32 (x : Z) : Z := Z.land x mask32.
Definition add32 (x y : Z) : Z := w32 (x + y).
Definition not32 (x : Z) : Z := Z.lxor x mask32.
Definition rotr (n x : Z) : Z := Z.lor (Z.shiftr x n) (w32 (Z.shiftl x (32 - n))).
Definition shr (n x : Z) : Z := Z.shiftr x n.

Definition Ch (x y z : Z) : Z := Z.lxor (Z.land x y) (Z.land (not32 x) z).
Definition Maj (x y z : Z) : Z :=
  Z.lxor (Z.lxor (Z.land x y) (Z.land x z)) (Z.land y z).
Definition Sigma0 (x : Z) : Z := Z.lxor (Z.lxor (rotr 2 x) (rotr 13 x)) (rotr 22 x).
Definition Sigma1 (x : Z) : Z := Z.lxor (Z.lxor (rotr 6 x) (rotr 11 x)) (rotr 25 x).
Definition sigma0 (x : Z) : Z := Z.lxor (Z.lxor (rotr 7 x) (rotr 18 x)) (shr 3 x).
Definition sigma1 (x : Z) : Z := Z.lxor (Z.lxor (rotr 17 x) (rotr 19 x)) (shr 10 x).

(** The round constants and the initial hash value are the first 32 bits of
    the fractional parts of the cube roots of the first 64 primes and of the
    square roots of the first 8 (FIPS 180-4, 4.2.2 and 5.3.3). *)
Definition primes : list Z :=
  [ 2; 3; 5; 7; 11; 13; 17; 19; 23; 29; 31; 37; 41; 43; 47; 53;
    59; 61; 67; 71; 73; 79; 83; 89; 97; 101; 103; 107; 109; 113; 127; 131;
    137; 139; 149; 151; 157; 163; 167; 173; 179; 181; 191; 193; 197; 199; 211; 223;
    227; 229; 233; 239; 241; 251; 257; 263; 269; 271; 277; 281; 283; 293; 307; 311 ].

(** The integer part of the root of degree [k] of [n], below 2^36, bit by bit. *)
Definition iroot (k n : Z) : Z :=
  fold_left (fun r bit =>
               let r' := r + 2 ^ Z.of_nat bit in
               if r' ^ k <=? n then r' else r)
            (rev (seq 0 36)) 0.

Definition root_fraction (k p : Z) : Z := iroot k (p * 2 ^ (32 * k)) mod 2 ^ 32.

Definition K : list Z := Eval vm_compute in List.map (root_fraction 3) primes.

Definition H0 : list Z := Eval vm_compute in List.map (root_fraction 2) (firstn 8 primes).

(** Padding: a 1 bit, zeros up to 56 mod 64 bytes, the bit length on 8 bytes. *)
Definition be_bytes (n : nat) (x : Z) : list Z :=
  List.map (fun i => Z.land (Z.shiftr x (8 * Z.of_nat i)) 0xFF) (rev (seq 0 n)).

Definition pad (msg : list Z) : list Z :=
  let len := Z.of_nat (List.length msg) in
  let zeros := Z.to_nat ((55 - len) mod 64) in
  msg ++ 0x80 :: repeat 0 zeros ++ be_bytes 8 (8 * len).

Fixpoint be_words (bs : list Z) : list Z :=
  match bs with
  | b0 :: b1 :: b2 :: b3 :: rest =>
      (Z.shiftl b0 24 + Z.shiftl b1 16 + Z.shiftl b2 8 + b3) :: be_words rest
  | _ => []
  end.

Fixpoint blocks (n : nat) (ws : list Z) : list (list Z) :=
  match n with
  | O => []
  | S n' => match ws with
            | [] => []
            | _ => firstn 16 ws :: blocks n' (skipn 16 ws)
            end
  end.

(** The message schedule, most recent word first. *)
Fixpoint schedule (n : nat) (w : list Z) : list Z :=
  match n with
  | O => w
  | S n' =>
      let wt := add32 (add32 (add32 (sigma1 (nth 1 w 0)) (nth 6 w 0))
                             (sigma0 (nth 14 w 0))) (nth 15 w 0) in
      schedule n' (wt :: w)
  end.

Definition round (st : list Z) (kw : Z * Z) : list Z :=
  match st with
  | [a; b; c; d; e; f; g; h] =>
      let t1 := add32 (add32 (add32 (add32 h (Sigma1 e)) (Ch e f g)) (fst kw)) (snd kw) in
      let t2 := add32 (Sigma0 a) (Maj a b c) in
      [add32 t1 t2; a; b; c; add32 d t1; e; f; g]
  | _ => st
  end.

Definition compress (h : list Z) (block : list Z) : list Z :=
  let w := rev (schedule 48 (rev block)) in
  let st := fold_left round (combine K w) h in
  List.map (fun p => add32 (fst p) (snd p)) (combine h st).

Definition digest_words (msg : list Z) : list Z :=
  let ws := be_words (pad msg) in
  fold_left compress (blocks (List.length ws) ws) H0.

Definition hex_digit (d : Z) : ascii :=
  ascii_of_N (Z.to_N (if d <? 10 then 48 + d else 87 + d)).

Fixpoint hex_of_bytes (bs : list Z) : string :=
  match bs with
  | [] => EmptyString
  | b :: rest => String (hex_digit (Z.shiftr b 4)) (String (hex_digit (Z.land b 0xF)) (hex_of_bytes rest))
  end.

(** [hashlib.sha256(b).hexdigest()] *)
Definition hexdigest (b : string) : string :=
  hex_of_bytes (concat (List.map (be_bytes 4) (digest_words (bytes_of_string b)))).

End SHA256.

(** ** Code points, [str.lower] and the [re] module

    [re.findall(r'\b' + re.escape(k) + r'\b', text)] for a literal [k]:
    the pattern matches [k] itself between two word boundaries. *)

Module Unicode.

Definition cont (b : Z) : Z := Z.land b 0x3F.

Fixpoint decode_utf8 (bs : list Z) : list Z :=
  match bs with
  | [] => []
  | b0 :: r0 =>
      if b0 <? 0x80 then b0 :: decode_utf8 r0
      else if b0 <? 0xE0 then
        match r0 with
        | b1 :: r1 => (Z.shiftl (Z.land b0 0x1F) 6 + cont b1) :: decode_utf8 r1
        | _ => [b0]
        end
      else if b0 <? 0xF0 then
        match r0 with
        | b1 :: b2 :: r2 =>
            (Z.shiftl (Z.land b0 0x0F) 12 + Z.shiftl (cont b1) 6 + cont b2) :: decode_utf8 r2
        | _ => [b0]
        end
      else
        match r0 with
        | b1 :: b2 :: b3 :: r3 =>
            (Z.shiftl (Z.land b0 0x07) 18 + Z.shiftl (cont b1) 12 + Z.shiftl (cont b2) 6 + cont b3)
              :: decode_utf8 r3
        | _ => [b0]
        end
  end.

Definition code_points (s : string) : list Z := decode_utf8 (bytes_of_string s).

(** What Python takes from the Unicode database: [str.isalnum] of a
    character (the regular expression [\w] is [isalnum] or an underscore) and
    [str.lower] of a string. *)
Class UnicodeData := {
  uni_isalnum : Z -> bool;
  uni_lower : list Z -> list Z
}.

Definition between (lo c hi : Z) : bool := (lo <=? c) && (c <=? hi).

(** The database on ASCII and on the Russian alphabet (U+0410 to U+044F,
    U+0401, U+0451), the characters of the vocabulary.  Other characters
    are outside this table: it answers "not alphanumeric" and leaves them
    unchanged, so it is used on texts of these characters only. *)
Definition basic_isalnum (c : Z) : bool :=
  between 48 c 57 || between 65 c 90 || between 97 c 122
  || between 0x410 c 0x44F || (c =? 0x401) || (c =? 0x451).

Definition basic_lower_char (c : Z) : Z :=
  if between 65 c 90 then c + 32
  else if between 0x410 c 0x42F then c + 0x20
  else if c =? 0x401 then 0x451
  else c.

Definition basic_unicode : UnicodeData :=
  {| uni_isalnum := basic_isalnum; uni_lower := List.map basic_lower_char |}.

Section Regex.
Context {ucd : UnicodeData}.

(** [\w] *)
Definition is_word (c : Z) : bool := uni_isalnum c || (c =? 95).

Definition word_at (o : option Z) : bool :=
  match o with
  | Some c => is_word c
  | None => false
  end.

(** [\b] between the character before a position and the one at it: exactly
    one of them is a word character (the ends of the text count as non-word). *)
Definition boundary (prev next : option Z) : bool := xorb (word_at prev) (word_at next).

(** The literal at the head of the text: what follows it. *)
Fixpoint match_literal (lit text : list Z) : option (list Z) :=
  match lit, text with
  | [], _ => Some text
  | c :: lit', d :: text' => if c =? d then match_literal lit' text' else None
  | _ :: _, [] => None
  end.

Definition last_char (prev : option Z) (lit : list Z) : option Z :=
  match lit with
  | [] => prev
  | _ => Some (List.last lit 0)
  end.

(** [\b lit \b] matches at this position. *)
Definition matches_here (lit : list Z) (prev : option Z) (text : list Z) : bool :=
  boundary prev (List.head text)
  && match match_literal lit text with
     | Some rest => boundary (last_char prev lit) (List.head rest)
     | None => false
     end.

(** [len(re.findall(pattern, text))]: the scan goes left to right and, after
    a match, resumes at its end ([skip] characters are still inside the last
    match). *)
Fixpoint findall_count (lit : list Z) (skip : nat) (prev : option Z) (text : list Z) : nat :=
  match skip with
  | S k =>
      match text with
      | [] => O
      | c :: rest => findall_count lit k (Some c) rest
      end
  | O =>
      let hit := matches_here lit prev text in
      match text with
      | [] => if hit then 1%nat else O
      | c :: rest =>
          if hit then S (findall_count lit (Nat.pred (List.length lit)) (Some c) rest)
          else findall_count lit O (Some c) rest
      end
  end.

(** [len(re.findall(r'\b' + re.escape(keyword.lower()) + r'\b', text))] *)
Definition count_keyword (keyword : string) (text : list Z) : nat :=
  findall_count (uni_lower (code_points keyword)) O None text.

End Regex.

End Unicode.

(** ** Python floats: [min], [max], [round(x, 2)], [int / int], [float(int)] *)

Module PyFloat.

(** [min(a, b)] keeps [a] unless [b < a]; [max(a, b)] keeps [a] unless [b > a]. *)
Definition py_min (a b : float) : float := if PrimFloat.ltb b a then b else a.
Definition py_max (a b : float) : float := if PrimFloat.ltb a b then b else a.

(** An integer as an (unnormalised) binary float: sign and magnitude. *)
Definition SF_int (s : bool) (n : Z) : spec_float :=
  match n with
  | Zpos p => S754_finite s p 0
  | _ => S754_zero s
  end.

(** [a / b] on integers (true division, correctly rounded; [b] is not 0). *)
Definition int_truediv (a b : Z) : float :=
  SF2Prim (SFdiv prec emax (SF_int (a <? 0) (Z.abs a)) (SF_int (b <? 0) (Z.abs b))).

(** [float(n)], correctly rounded (Python raises OverflowError from 2^1024 on). *)
Definition float_of_int (n : Z) : float :=
  SF2Prim (binary_normalize prec emax n 0 false).

(** The integer nearest to [n / 2^k], ties to the even one. *)
Definition round_half_even (n k : Z) : Z :=
  let d := 2 ^ k in
  let q := n / d in
  match (2 * (n mod d) ?= d) with
  | Lt => q
  | Gt => q + 1
  | Eq => if Z.even q then q else q + 1
  end.

(** [round(x, 2)]: the exact value of [x] is rounded half-even to two
    decimals ([_Py_dg_dtoa], mode 3), and that decimal is converted back to
    the nearest float ([_Py_dg_strtod]).  Integers, zeros, infinities and NaN
    are returned as they are. *)
Definition py_round2 (x : float) : float :=
  match Prim2SF x with
  | S754_finite s m e =>
      if 0 <=? e then x
      else SF2Prim (SFdiv prec emax
                      (SF_int s (round_half_even (Zpos m * 100) (- e)))
                      (SF_int false 100))
  | _ => x
  end.

End PyFloat.

(** ** datetime and timedelta

    A [datetime] is its wall-clock reading, in microseconds since the start
    of day 0, and its [tzinfo]: [None] (naive) or a UTC offset in
    microseconds.  A [timedelta] is a number of microseconds. *)

Module Datetime.

Record datetime := { dt_wall : Z; dt_tz : option Z }.

Definition us_per_second : Z := 1000000.
Definition us_per_day : Z := 86400 * us_per_second.

Definition timedelta_hours (h : Z) : Z := h * 3600 * us_per_second.
Definition timedelta_days (d : Z) : Z := d * us_per_day.

(** [datetime.now()]: the local wall clock, naive. *)
Definition datetime_now (clock : Z) : datetime := {| dt_wall := clock; dt_tz := None |}.

(** [d.replace(tzinfo=None)] *)
Definition replace_tzinfo_None (d : datetime) : datetime :=
  {| dt_wall := dt_wall d; dt_tz := None |}.

(** [d.date()] (a day number) and [d.time()] (microseconds since midnight). *)
Definition date_of (d : datetime) : Z := dt_wall d / us_per_day.
Definition time_of (d : datetime) : Z := dt_wall d mod us_per_day.

(** [datetime.combine(date, time)] *)
Definition combine (date time : Z) : datetime :=
  {| dt_wall := date * us_per_day + time; dt_tz := None |}.

(** [datetime.min] and [datetime.max] are the first microsecond of day 1
    (0001-01-01) and the last one of day 3652059 (9999-12-31). *)
Definition MINYEAR_WALL : Z := us_per_day.
Definition MAXYEAR_WALL : Z := 3652060 * us_per_day - 1.

(** [d + td]: OverflowError outside the years 1 to 9999. *)
Definition datetime_add (d : datetime) (td : Z) : result datetime :=
  let w := dt_wall d + td in
  if (MINYEAR_WALL <=? w) && (w <=? MAXYEAR_WALL)
  then Ok {| dt_wall := w; dt_tz := dt_tz d |}
  else Raise OverflowError.

(** [a - b]: naive operands subtract their wall clocks, aware ones their UTC
    instants; mixing the two raises TypeError. *)
Definition datetime_sub (a b : datetime) : result Z :=
  match dt_tz a, dt_tz b with
  | None, None => Ok (dt_wall a - dt_wall b)
  | Some oa, Some ob => Ok ((dt_wall a - oa) - (dt_wall b - ob))
  | _, _ => Raise TypeError
  end.

(** [a > b] *)
Definition datetime_gt (a b : datetime) : result bool :=
  let* d := datetime_sub a b in Ok (0 <? d).

(** [td.total_seconds()] *)
Definition total_seconds (td : Z) : float := PyFloat.int_truediv td us_per_second.

Definition digit_of (c : ascii) : option Z :=
  let n := Z.of_N (N_of_ascii c) in
  if (48 <=? n) && (n <=? 57) then Some (n - 48) else None.

Definition two_digits (a b : ascii) : option Z :=
  match digit_of a, digit_of b with
  | Some x, Some y => Some (10 * x + y)
  | _, _ => None
  end.

(** One or two decimal digits. *)
Definition parse_digits (l : list ascii) : option Z :=
  match l with
  | [a] => digit_of a
  | [a; b] => two_digits a b
  | _ => None
  end.

(** The text before the first colon, and the text after it. *)
Fixpoint split_colon (l : list ascii) : option (list ascii * list ascii) :=
  match l with
  | [] => None
  | c :: rest =>
      if Ascii.eqb c ":"%char then Some ([], rest)
      else match split_colon rest with
           | Some (before, after) => Some (c :: before, after)
           | None => None
           end
  end.

(** [datetime.strptime(s, "%H:%M").time()]: one or two digits of hours
    (0 to 23), a colon, one or two digits of minutes (0 to 59), and nothing
    else; ValueError otherwise. *)
Definition strptime_HM (s : string) : result Z :=
  match split_colon (list_ascii_of_string s) with
  | Some (hours, minutes) =>
      match parse_digits hours, parse_digits minutes with
      | Some h, Some m =>
          if (h <=? 23) && (m <=? 59)
          then Ok (timedelta_hours h + m * 60 * us_per_second)
          else Raise ValueError
      | _, _ => Raise ValueError
      end
  | None => Raise ValueError
  end.

End Datetime.

(** ** database/models.py *)

Module Models.
Import Datetime.

(** The dataclass [News].  [news_id] is the field [id]. *)
Record News := mkNews {
  title : string;
  link : string;
  description : string;
  source : string;
  published_at : datetime;
  language : string;
  rating : float;
  parsed_at : option datetime;
  content_hash : option string;
  news_id : option Z
}.

Definition set_rating (n : News) (r : float) : News :=
  mkNews (title n) (link n) (description n) (source n) (published_at n) (language n)
         r (parsed_at n) (content_hash n) (news_id n).

(** [News.calculate_hash]: the SHA-256 of [title + link + description]. *)
Definition calculate_hash (n : News) : string :=
  SHA256.hexdigest (title n ++ link n ++ description n).

(** [News.__post_init__] *)
Definition post_init (clock : Z) (n : News) : News :=
  let n1 :=
    match parsed_at n with
    | None => mkNews (title n) (link n) (description n) (source n) (published_at n)
                     (language n) (rating n) (Some (datetime_now clock))
                     (content_hash n) (news_id n)
    | Some _ => n
    end in
  match content_hash n1 with
  | None => mkNews (title n1) (link n1) (description n1) (source n1) (published_at n1)
                   (language n1) (rating n1) (parsed_at n1)
                   (Some (calculate_hash n1)) (news_id n1)
  | Some _ => n1
  end.

(** [News(title=..., link=..., ...)]: the generated [__init__], then
    [__post_init__]. *)
Definition News_init (clock : Z) (title link description source : string)
    (published_at : datetime) (language : string) (rating : float)
    (parsed_at : option datetime) (content_hash : option string) (id : option Z) : News :=
  post_init clock
    (mkNews title link description source published_at language rating
            parsed_at content_hash id).

End Models.

(** ** database/db_manager.py

    The table [news] of the SQLite database: its rows in insertion order and
    the AUTOINCREMENT counter ([sqlite_sequence]).  The columns [title] and
    [link] are NOT NULL UNIQUE, [content_hash] is UNIQUE (SQLite keeps NULLs
    distinct), [parsed_at] is NOT NULL. *)

Module DatabaseManager.
Import Datetime Models.

Record Row := mkRow {
  row_id : Z;
  row_title : string;
  row_link : string;
  row_description : string;
  row_source : string;
  row_published_at : datetime;
  row_parsed_at : datetime;
  row_language : string;
  row_rating : float;
  row_content_hash : option string
}.

Record Database := mkDatabase {
  news_table : list Row;
  news_seq : Z
}.

Definition empty_database : Database := mkDatabase [] 0.

(** A row clashes with the values to insert on one of the UNIQUE columns. *)
Definition clashes (t l : string) (h : option string) (r : Row) : bool :=
  String.eqb (row_title r) t
  || String.eqb (row_link r) l
  || match h, row_content_hash r with
     | Some a, Some b => String.eqb b a
     | _, _ => false
     end.

(** [cursor.execute("INSERT INTO news (...) VALUES (...)")] and
    [cursor.lastrowid]. *)
Definition insert_news (db : Database) (news : News) : result (Z * Database) :=
  match parsed_at news with
  | None => Raise IntegrityError
  | Some parsed =>
      if existsb (clashes (title news) (link news) (content_hash news)) (news_table db)
      then Raise IntegrityError
      else
        let rowid := news_seq db + 1 in
        Ok (rowid,
            mkDatabase
              (news_table db ++
                 [mkRow rowid (title news) (link news) (description news) (source news)
                        (published_at news) parsed (language news) (rating news)
                        (content_hash news)])
              rowid)
  end.

(** [DatabaseManager.add_news]: [get_connection] commits when the block
    ends normally and rolls back when it raises; [add_news] turns
    [sqlite3.IntegrityError] into [None] and lets anything else through. *)
Definition add_news (db : Database) (news : News) : result (option Z) * Database :=
  match insert_news db news with
  | Ok (news_id, db') => (Ok (Some news_id), db')
  | Raise IntegrityError => (Ok None, db)
  | Raise e => (Raise e, db)
  end.

(** [DatabaseManager.check_news_exists] *)
Definition check_news_exists (db : Database) (content_hash : string) : bool :=
  existsb (fun r => match row_content_hash r with
                    | Some h => String.eqb h content_hash
                    | None => false
                    end) (news_table db).

(** [DatabaseManager.clear_all_news] *)
Definition clear_all_news (db : Database) : Z * Database :=
  (Z.of_nat (List.length (news_table db)), mkDatabase [] (news_seq db)).

End DatabaseManager.

(** ** config/settings.py and config/sources.py *)

Module Settings.

Definition SCHEDULE_INTERVALS : gmap string Z :=
  <["daily" := 86400]> (<["6hours" := 21600]> (<["3hours" := 10800]> (<["hourly" := 3600]> ∅))).

Definition DAILY_SEND_TIME : string := "09:00".
Definition TOP_NEWS_COUNT : nat := 4.

Definition RATING_MIN : float := 0.0.
Definition RATING_MAX : float := 10.0.

Definition RELEVANCE_KEYWORDS : list string :=
  [ "vibe coding"; "вайб кодинг"; "coding vibe"; "атмосфера программирования";
    "programming"; "программирование";
    "coding"; "кодинг"; "кодирование";
    "development"; "разработка";
    "software development"; "разработка софта";
    "app development"; "разработка приложений";
    "web development"; "веб-разработка";
    "backend"; "бэкенд"; "backend development"; "разработка бэкенда";
    "frontend"; "фронтенд"; "frontend development"; "разработка фронтенда";
    "fullstack"; "фулстек"; "fullstack developer"; "фулстек разработчик";
    "code"; "код";
    "source code"; "исходный код";
    "clean code"; "чистый код";
    "developer"; "разработчик";
    "software engineer"; "инженер-программист";
    "programmer"; "программист";
    "fullstack developer"; "фулстек разработчик";
    "ai developer"; "разработчик интеллект";
    "machine learning engineer"; "инженер по машинному обучению";
    "artificial intelligence"; "искусственный интеллект"; "ai"; "ии";
    "machine learning"; "машинное обучение";
    "neural networks"; "нейронные сети";
    "deep learning"; "глубокое обучение";
    "ml engineer"; "ml инженер";
    "ai tools"; "инструменты ии";
    "cursor"; "курсор";
    "cursor ide"; "cursor иде"; "cursor editor"; "editor cursor"; "редактор cursor";
    "integrated development environment"; "интегрированная среда разработки"; "ide"; "среда разработки";
    "text editor"; "текстовый редактор";
    "git"; "гит";
    "github"; "гитхаб";
    "version control"; "система контроля версий";
    "repository"; "репозиторий";
    "command line"; "командная строка";
    "terminal"; "терминал";
    "python"; "питон";
    "javascript"; "джаваскрипт";
    "typescript"; "тайпскрипт";
    "java"; "ява";
    "c++"; "си плюс плюс";
    "c#"; "си шарп";
    "go"; "го";
    "rust"; "раст";
    "sql"; "скьюэль";
    "algorithm"; "алгоритм";
    "data structure"; "структура данных";
    "function"; "функция";
    "variable"; "переменная";
    "loop"; "цикл";
    "debug"; "отладка";
    "refactor"; "рефакторинг";
    "pull request"; "пулл-реквест";
    "commit"; "коммит";
    "deploy"; "деплой";
    "cloud"; "облако";
    "open source"; "опенсорс";
    "stack overflow"; "стэк оверфлоу";
    "best practice"; "лучшие практики" ].

Definition WEIGHT_FRESHNESS : float := 0.3.
Definition WEIGHT_SOURCE : float := 0.25.
Definition WEIGHT_KEYWORDS : float := 0.25.
Definition WEIGHT_LENGTH : float := 0.2.

Definition REQUEST_TIMEOUT : Z := 30.
Definition MAX_RETRIES : nat := 3.
Definition RETRY_DELAY : Z := 2.

End Settings.

Module Sources.

(** An entry of [RSS_SOURCES]: the dict with the keys [name], [url],
    [language], [weight] and [category]. *)
Record RssSource := mkSource {
  src_name : string;
  src_url : string;
  src_language : string;
  src_weight : float;
  src_category : string
}.

Definition RSS_SOURCES : list RssSource :=
  [ mkSource "Dev.to" "https://dev.to/feed" "en" 8.5 "vibe-coding";
    mkSource "Hacker News" "https://hnrss.org/newest" "en" 9.0 "vibe-coding";
    mkSource "Reddit Programming" "https://www.reddit.com/r/programming/.rss" "en" 7.5 "vibe-coding";
    mkSource "GitHub Blog" "https://github.blog/feed/" "en" 8.0 "vibe-coding";
    mkSource "Habr" "https://habr.com/ru/rss/all/all/" "ru" 9.0 "vibe-coding";
    mkSource "Tproger" "https://tproger.ru/feed/" "ru" 8.0 "vibe-coding" ].

End Sources.

(** ** parser/ranking.py *)

Module RankingEngine.
Import Datetime Models Settings Sources Unicode PyFloat.

Section Ranking.
Context {ucd : UnicodeData}.

(** [RankingEngine.__init__]: the dict comprehension over [RSS_SOURCES]
    (a later source of the same name replaces an earlier one). *)
Definition source_weights : gmap string float :=
  fold_left (fun m s => <[src_name s := src_weight s]> m) RSS_SOURCES ∅.

(** [_calculate_freshness_score]; [clock] is what [datetime.now()] reads.
    Both operands of the subtraction are naive. *)
Definition _calculate_freshness_score (clock : Z) (published_at : datetime) : float :=
  let published_at :=
    match dt_tz published_at with
    | Some _ => replace_tzinfo_None published_at
    | None => published_at
    end in
  let now := datetime_now clock in
  let age := dt_wall now - dt_wall published_at in
  if age <? timedelta_hours 1 then 1.0%float
  else if age <? timedelta_hours 3 then 0.9%float
  else if age <? timedelta_hours 6 then 0.7%float
  else if age <? timedelta_hours 12 then 0.5%float
  else if age <? timedelta_days 1 then 0.3%float
  else 0.1%float.

(** [_calculate_source_score] *)
Definition _calculate_source_score (source : string) : float :=
  let weight := default 5.0%float (source_weights !! source) in
  (weight / 10.0)%float.

(** The loop of [_calculate_keyword_score]: the matches of every keyword of
    the list, added up. *)
Definition keyword_count (title description : string) : nat :=
  let text := uni_lower (code_points (title ++ " " ++ description)) in
  fold_left (fun n keyword => (n + count_keyword keyword text)%nat) RELEVANCE_KEYWORDS O.

(** [_calculate_keyword_score] *)
Definition _calculate_keyword_score (title description : string) : float :=
  py_min 1.0%float (float_of_int (Z.of_nat (keyword_count title description)) / 5.0)%float.

(** [_calculate_length_score] *)
Definition _calculate_length_score (article_length : Z) : float :=
  if article_length =? 0 then 0.5%float
  else if (500 <=? article_length) && (article_length <=? 2000) then 1.0%float
  else if (300 <=? article_length) && (article_length <? 500) then 0.8%float
  else if (2000 <? article_length) && (article_length <=? 3000) then 0.8%float
  else if (100 <=? article_length) && (article_length <? 300) then 0.5%float
  else 0.3%float.

(** [calculate_rating] *)
Definition calculate_rating (clock : Z) (news : News) (article_length : Z) : float :=
  let freshness_score := _calculate_freshness_score clock (published_at news) in
  let source_score := _calculate_source_score (source news) in
  let keyword_score := _calculate_keyword_score (title news) (description news) in
  let length_score := _calculate_length_score article_length in
  let total_score :=
    (freshness_score * WEIGHT_FRESHNESS + source_score * WEIGHT_SOURCE
     + keyword_score * WEIGHT_KEYWORDS + length_score * WEIGHT_LENGTH)%float in
  let rating := py_max RATING_MIN (py_min RATING_MAX (total_score * RATING_MAX)%float) in
  py_round2 rating.

(** [sorted(l, key=..., reverse=True)].  Python's sort is stable and compares
    keys with [<] only; with [reverse=True] the result is in descending order
    and elements with equal keys keep their input order.  The result of a
    stable sort is determined by the order on the keys, so an insertion sort
    making the same comparisons stands for it. *)
Fixpoint insert_reverse {A} (key : A -> float) (x : A) (l : list A) : list A :=
  match l with
  | [] => [x]
  | y :: l' =>
      if PrimFloat.ltb (key x) (key y) then y :: insert_reverse key x l'
      else x :: y :: l'
  end.

Definition sorted_reverse {A} (key : A -> float) (l : list A) : list A :=
  fold_right (insert_reverse key) [] l.

(** The loop of [rank_news_list] that stores each rating in its entry;
    [clock i] is what [datetime.now()] reads while entry [i] is rated.  The
    entries of the list are distinct objects. *)
Definition rate_all (clock : nat -> Z) (article_lengths : gmap string Z)
    (news_list : list News) : list News :=
  imap (fun i news =>
          let length := default 0 (article_lengths !! link news) in
          set_rating news (calculate_rating (clock i) news length))
       news_list.

(** [rank_news_list] *)
Definition rank_news_list (clock : nat -> Z) (news_list : list News)
    (article_lengths : option (gmap string Z)) : list News :=
  let article_lengths := default ∅ article_lengths in
  sorted_reverse rating (rate_all clock article_lengths news_list).

End Ranking.

End RankingEngine.

(** ** parser/rss_parser.py

    The network, feedparser, BeautifulSoup and dateutil are outside the
    repository: what they answer is a parameter. *)

Module RSSParser.
Import Datetime Models Settings Sources.

(** What one [session.get(url, timeout=...)] with [response.text()] comes to. *)
Inductive http_outcome :=
| HttpResponse (status : Z) (text : string)
| HttpTimeout
| HttpError.

Inductive event :=
| EvGet (url : string) (timeout : Z)
| EvLogStatus (status : Z)
| EvLogTimeout (attempt : nat)
| EvLogError (attempt : nat)
| EvSleep (seconds : Z).

(** The body of the [for attempt in range(MAX_RETRIES)] loop of
    [fetch_feed], over the attempts still to make; [get url attempt] is the
    outcome of the request of that attempt.  The result is what [fetch_feed]
    returns, with the requests, log lines and pauses it made. *)
Fixpoint fetch_attempts (get : string -> nat -> http_outcome) (url : string)
    (attempts : list nat) : string * list event :=
  match attempts with
  | [] => ("", [])
  | attempt :: rest =>
      let retry (log : event) :=
        let pause := if (attempt <? MAX_RETRIES - 1)%nat then [EvSleep RETRY_DELAY] else [] in
        let '(content, trace) := fetch_attempts get url rest in
        (content, EvGet url REQUEST_TIMEOUT :: log :: (pause ++ trace)%list) in
      match get url attempt with
      | HttpResponse status text =>
          if status =? 200 then (text, [EvGet url REQUEST_TIMEOUT])
          else retry (EvLogStatus status)
      | HttpTimeout => retry (EvLogTimeout attempt)
      | HttpError => retry (EvLogError attempt)
      end
  end.

(** [RSSParser.fetch_feed] *)
Definition fetch_feed (get : string -> nat -> http_outcome) (url : string) : string * list event :=
  fetch_attempts get url (seq 0 MAX_RETRIES).

(** An entry of [feedparser.parse(content).entries]: the fields the parser reads. *)
Record FeedEntry := mkEntry {
  entry_title : option string;
  entry_link : option string;
  entry_summary : option string;
  entry_description : option string;
  entry_published : option string;
  entry_updated : option string;
  entry_created : option string
}.

Section Parser.
Variable feedparser_parse : string -> result (list FeedEntry).
Variable strip_html_tags : string -> string.
Variable date_parser_parse : string -> result datetime.
(** [net task] answers the requests of the task of the source number [task];
    [clock task k] is what the call number [k] of [datetime.now()] made in
    that task reads. *)
Variable net : nat -> string -> nat -> http_outcome.
Variable clock : nat -> nat -> Z.

(** [RSSParser._parse_date]: the first of [published], [updated], [created]
    that is present, not empty and parses; the current time otherwise.
    [now] is what [datetime.now()] reads when the last line is reached. *)
Fixpoint first_date (now : Z) (fields : list (option string)) : datetime :=
  match fields with
  | [] => datetime_now now
  | field :: rest =>
      match field with
      | Some date_str =>
          if String.eqb date_str "" then first_date now rest
          else match date_parser_parse date_str with
               | Ok d => d
               | Raise _ => first_date now rest
               end
      | None => first_date now rest
      end
  end.

Definition _parse_date (now : Z) (entry : FeedEntry) : datetime :=
  first_date now [entry_published entry; entry_updated entry; entry_created entry].

(** The field gives [_parse_date] a date. *)
Definition gives_date (field : option string) : bool :=
  match field with
  | Some date_str =>
      if String.eqb date_str "" then false
      else match date_parser_parse date_str with
           | Ok _ => true
           | Raise _ => false
           end
  | None => false
  end.

(** The calls of [datetime.now()] that [_parse_date] makes: one, on its last
    line, when no field gave a date. *)
Definition _parse_date_readings (entry : FeedEntry) : nat :=
  if existsb gives_date [entry_published entry; entry_updated entry; entry_created entry]
  then 0%nat else 1%nat.

(** The statements inside the [try] of the loop of [parse_feed_content], for
    one entry.  [ticks] are the readings of the clock still to come:
    [_parse_date] takes the first one when it needs the current time, and
    [News.__post_init__] the next one.  The result comes with the number of
    readings made.  On an entry whose fields are strings none of these
    statements raises: [dict.get] has its default, [strip_html_tags] and
    [_parse_date] catch the exceptions of what they call, and the
    constructor reads the clock and hashes the text. *)
Definition parse_entry (ticks : nat -> Z) (source : RssSource) (entry : FeedEntry)
  : result News * nat :=
  let title := default "Без заголовка" (entry_title entry) in
  let link := default "" (entry_link entry) in
  let description :=
    default (default "" (entry_description entry)) (entry_summary entry) in
  let title := strip_html_tags title in
  let description := strip_html_tags description in
  let published_at := _parse_date (ticks O) entry in
  let made := _parse_date_readings entry in
  let news :=
    News_init (ticks made) title link description (src_name source) published_at
              (src_language source) 0.0%float None None None in
  (Ok news, S made).

(** The loop [for entry in feed.entries]: the news of an entry is appended
    to [news_list]; [except Exception] logs the error of an entry and goes
    on with the next one. *)
Fixpoint parse_entries (ticks : nat -> Z) (source : RssSource) (entries : list FeedEntry)
  : list News :=
  match entries with
  | [] => []
  | entry :: rest =>
      let '(r, made) := parse_entry ticks source entry in
      let later := parse_entries (fun k => ticks (made + k)%nat) source rest in
      match r with
      | Ok news => news :: later
      | Raise _ => later
      end
  end.

(** [RSSParser.parse_feed_content]; an exception of [feedparser.parse] is
    outside the [try] and reaches the caller. *)
Definition parse_feed_content (ticks : nat -> Z) (content : string) (source : RssSource)
  : result (list News) :=
  let* entries := feedparser_parse content in
  Ok (parse_entries ticks source entries).

(** [RSSParser._parse_source], as the task number [task] *)
Definition _parse_source (task : nat) (source : RssSource) : result (list News) :=
  let content := fst (fetch_feed (net task) (src_url source)) in
  if String.eqb content "" then Ok []
  else parse_feed_content (clock task) content source.

(** [asyncio.gather] with its [return_exceptions] flag: the results in the order
    of the tasks.  With [return_exceptions=True] an exception of a task is
    its result; otherwise the first one is raised to the caller.  The tasks
    here share no state, so the order in which they run does not change
    their results. *)
Definition gather {A} (return_exceptions : bool) (tasks : list (result A))
  : result (list (result A)) :=
  if return_exceptions then Ok tasks
  else fold_right (fun t acc =>
                     match t with
                     | Ok _ => acc
                     | Raise e => Raise e
                     end) (Ok tasks) tasks.

(** The loop over [results] of [parse_all_sources]. *)
Definition extend_results (results : list (result (list News))) : list News :=
  fold_left (fun (all_news : list News) r =>
               match r with
               | Ok l => (all_news ++ l)%list
               | Raise _ => all_news
               end) results [].

(** [RSSParser.parse_all_sources] over the list [self.sources] *)
Definition parse_all_sources (sources : list RssSource) : result (list News) :=
  let tasks := imap _parse_source sources in
  let* results := gather true tasks in
  Ok (extend_results results).

End Parser.

End RSSParser.

(** ** bot/scheduler.py *)

Module NewsScheduler.
Import Datetime Settings.

(** [SCHEDULE_INTERVALS.get(self.interval, 3600)] *)
Definition interval_seconds (interval : string) : Z :=
  default 3600 (SCHEDULE_INTERVALS !! interval).

(** [_send_scheduled_digest]: [body] is the outcome of the statements inside
    its [try]; [except Exception] logs the error and the method returns. *)
Definition _send_scheduled_digest (body : result unit) : result unit :=
  match body with
  | Ok _ => Ok tt
  | Raise _ => Ok tt
  end.

(** The places where [_run_interval_schedule] waits: for the cycle, for a
    sleep; and the end of the loop. *)
Inductive place :=
| InCycle
| Sleeping (seconds : Z)
| LoopExited.

Record scheduler := mkScheduler {
  at_place : place;
  is_running : bool
}.

(** What wakes the scheduler up: the awaited cycle returns or raises, the
    awaited sleep is over; or another task calls [stop()]. *)
Inductive input :=
| CycleDone (r : result unit)
| SleepOver
| StopCalled.

(** [while self.is_running:] and the start of an iteration *)
Definition loop_head (is_running : bool) : scheduler :=
  if is_running then mkScheduler InCycle true else mkScheduler LoopExited false.

(** [start()] in the automatic mode with an interval other than [daily] *)
Definition start_interval : scheduler := loop_head true.

(** One step of [_run_interval_schedule] (and [stop]). *)
Definition step (interval : string) (s : scheduler) (i : input) : scheduler :=
  match i, at_place s with
  | StopCalled, _ => mkScheduler (at_place s) false
  | CycleDone (Ok _), InCycle => mkScheduler (Sleeping (interval_seconds interval)) (is_running s)
  | CycleDone (Raise _), InCycle => mkScheduler (Sleeping 60) (is_running s)
  | SleepOver, Sleeping _ => loop_head (is_running s)
  | _, _ => s
  end.

Definition run (interval : string) (s : scheduler) (inputs : list input) : scheduler :=
  fold_left (step interval) inputs s.

(** The sleeps started along a run, in order. *)
Fixpoint sleeps (interval : string) (s : scheduler) (inputs : list input) : list Z :=
  match inputs with
  | [] => []
  | i :: rest =>
      let s' := step interval s i in
      match i, at_place s, at_place s' with
      | CycleDone _, InCycle, Sleeping d => d :: sleeps interval s' rest
      | _, _, _ => sleeps interval s' rest
      end
  end.

(** The computation of [wait_seconds] in [_run_daily_schedule], as a
    timedelta; [clock] is what [datetime.now()] reads. *)
Definition daily_wait (send_time_str : string) (clock : Z) : result Z :=
  let now := datetime_now clock in
  let* send_time := strptime_HM send_time_str in
  let next_send := combine (date_of now) send_time in
  let* next_send :=
    if send_time <? time_of now
    then datetime_add (combine (date_of now) send_time) (timedelta_days 1)
    else Ok next_send in
  datetime_sub next_send now.

Definition wait_seconds (clock : Z) : result float :=
  let* wait := daily_wait DAILY_SEND_TIME clock in Ok (total_seconds wait).

End NewsScheduler.

(** ** The digest pipeline: saving the ranked entries

    [_send_scheduled_digest] (bot/scheduler.py), [cmd_news], [cmd_digest],
    [cmd_post_digest] (bot/handlers.py) and [parse_and_save_top_news]
    (parse_and_save_news.py) save the ranked entries one by one and keep the
    first entries of the ranking for the digest. *)

Module Pipeline.
Import Models DatabaseManager Settings.

(** The truth value of an [Optional[int]]: [None] and [0] are false. *)
Definition truthy (news_id : option Z) : bool :=
  match news_id with
  | Some i => negb (i =? 0)
  | None => false
  end.

(** [for news in ranked_news: if self.db_manager.add_news(news): saved_count += 1] *)
Fixpoint save_all (db : Database) (news_list : list News) (saved_count : Z)
  : result Z * Database :=
  match news_list with
  | [] => (Ok saved_count, db)
  | news :: rest =>
      match add_news db news with
      | (Ok news_id, db') =>
          save_all db' rest (if truthy news_id then saved_count + 1 else saved_count)
      | (Raise e, db') => (Raise e, db')
      end
  end.

(** [ranked_news[:TOP_NEWS_COUNT]] *)
Definition top_news (ranked_news : list News) : list News :=
  firstn TOP_NEWS_COUNT ranked_news.

End Pipeline.

(** ** bot/scheduler.py: [start] and the daily loop *)

Module DailySchedule.
Import Datetime Settings NewsScheduler.









End DailySchedule.

(** ** Methods of [str] on code points

    The functions of utils/formatter.py, the word count of
    parser/html_parser.py and the command line of bot/handlers.py count, cut
    and search characters: there a [str] is the list of its code points. *)

Module PyStr.

(** [ord(c)] of an ASCII character *)
Definition ord (c : ascii) : Z := Z.of_N (N_of_ascii c).

(** [c.isspace()]: the whitespace of the Unicode database, which is also
    what [\s], [str.split()] and [str.strip()] take for whitespace. *)
Definition isspace (c : Z) : bool :=
  (9 <=? c) && (c <=? 13) || (28 <=? c) && (c <=? 32) || (c =? 133) || (c =? 160)
  || (c =? 5760) || (8192 <=? c) && (c <=? 8202) || (c =? 8232) || (c =? 8233)
  || (c =? 8239) || (c =? 8287) || (c =? 12288).

Fixpoint lstrip (text : list Z) : list Z :=
  match text with
  | c :: rest => if isspace c then lstrip rest else text
  | [] => []
  end.

Definition rstrip (text : list Z) : list Z := rev (lstrip (rev text)).

(** [text.strip()] *)
Definition strip (text : list Z) : list Z := lstrip (rstrip text).

(** [text.split()]: the maximal runs of characters that are not whitespace.
    Read from the right: a whitespace character adds nothing; another
    character starts a word when whitespace or nothing follows it, and goes
    in front of the first word of the rest otherwise. *)
Fixpoint split (text : list Z) : list (list Z) :=
  match text with
  | [] => []
  | c :: rest =>
      if isspace c then split rest
      else match rest with
           | [] => [[c]]
           | d :: _ =>
               if isspace d then [c] :: split rest
               else match split rest with
                    | w :: ws => (c :: w) :: ws
                    | [] => [[c]]
                    end
           end
  end.

(** [sep.join(words)] *)
Fixpoint join (sep : list Z) (words : list (list Z)) : list Z :=
  match words with
  | [] => []
  | [w] => w
  | w :: ws => w ++ sep ++ join sep ws
  end.

(** [text[:stop]]: a negative [stop] counts from the end. *)
Definition slice_to (text : list Z) (stop : Z) : list Z :=
  if stop <? 0 then firstn (Z.to_nat (Z.of_nat (List.length text) + stop)) text
  else firstn (Z.to_nat stop) text.

Fixpoint rfind_at (pos : Z) (text : list Z) (c : Z) (found : Z) : Z :=
  match text with
  | [] => found
  | d :: rest => rfind_at (pos + 1) rest c (if d =? c then pos else found)
  end.

(** [text.rfind(c)] for a one-character [c]: the last index of [c], or -1. *)
Definition rfind (text : list Z) (c : Z) : Z := rfind_at 0 text c (-1).

(** [text.replace(old, new)] for a one-character [old] *)
Definition replace_char (old : Z) (new : list Z) (text : list Z) : list Z :=
  flat_map (fun c => if c =? old then new else [c]) text.

End PyStr.

(** ** utils/formatter.py *)

Module Formatter.
Import PyStr PyFloat.

Definition special_chars : list Z :=
  List.map ord ["_"; "*"; "["; "]"; "("; ")"; "~"; "`"; ">"; "#"; "+"; "-"; "="; "|"; "{"; "}";
                "."; "!"]%char.

(** [escape_markdown]: one [replace] after the other *)
Definition escape_markdown (text : list Z) : list Z :=
  fold_left (fun text char => replace_char char [ord "\"; char] text) special_chars text.

(** [.!?] *)
Definition is_sentence_end (c : Z) : bool :=
  (c =? ord ".") || (c =? ord "!") || (c =? ord "?").

(** The number of whitespace characters the text starts with. *)
Fixpoint space_run (text : list Z) : nat :=
  match text with
  | c :: rest => if isspace c then S (space_run rest) else O
  | [] => O
  end.

(** [list(re.finditer(r'[.!?]\s+', text))[-1].end()], if there is a match:
    a match starts at each of [.!?] that whitespace follows and takes all
    of that whitespace; no match starts inside another, a match holding
    only one character that is not whitespace.  [pos] is the index of the
    head of [text], [last] the end of the last match so far. *)
Fixpoint last_match_end (pos : nat) (text : list Z) (last : option nat) : option nat :=
  match text with
  | [] => last
  | c :: rest =>
      if is_sentence_end c && negb (space_run rest =? 0)%nat
      then last_match_end (S pos) rest (Some (S pos + space_run rest)%nat)
      else last_match_end (S pos) rest last
  end.

Definition ellipsis : list Z := [ord "."; ord "."; ord "."].

(** [truncate_by_sentences].  [last_space > max_chars * 0.7] compares an
    [int] with a [float] by their exact values; an index is far below 2^53,
    where the conversion to a float is exact. *)
Definition truncate_by_sentences (text : list Z) (max_chars : Z) : list Z :=
  if (match text with [] => true | _ => false end)
     || (Z.of_nat (List.length text) <=? max_chars)
  then text
  else
    let truncated := slice_to text max_chars in
    match last_match_end 0 truncated None with
    | Some last_end => strip (firstn last_end truncated)
    | None =>
        let last_space := rfind truncated (ord " ") in
        if PrimFloat.ltb (float_of_int max_chars * 0.7)%float (float_of_int last_space)
        then (strip (slice_to truncated last_space) ++ ellipsis)%list
        else (strip truncated ++ ellipsis)%list
    end.

(** [' '.join(text.split())], the last step of [strip_html_tags] and of the
    text extraction of parser/html_parser.py *)
Definition join_split (text : list Z) : list Z := join [ord " "] (split text).

End Formatter.

(** ** parser/html_parser.py: the word count *)

Module HTMLParser.
Import PyStr.

(** [HTMLParser.calculate_article_length] *)
Definition calculate_article_length (text : list Z) : Z :=
  Z.of_nat (List.length (split text)).

End HTMLParser.

(** ** database/models.py and database/db_manager.py: the users *)

Module Users.
Import Datetime.

(** The dataclass [User].  [user_id] is the field [id]. *)
Record User := mkUser {
  telegram_id : Z;
  username : option string;
  created_at : option datetime;
  settings : option string;
  user_id : option Z
}.

(** [User(...)]: the generated [__init__], then [__post_init__]. *)
Definition User_init (clock : Z) (telegram_id : Z) (username : option string)
    (created_at : option datetime) (settings : option string) (id : option Z) : User :=
  match created_at with
  | None => mkUser telegram_id username (Some (datetime_now clock)) settings id
  | Some _ => mkUser telegram_id username created_at settings id
  end.

Record UserRow := mkUserRow {
  urow_id : Z;
  urow_telegram_id : Z;
  urow_username : option string;
  urow_created_at : datetime;
  urow_settings : option string
}.

(** The table [users]: [telegram_id] is INTEGER UNIQUE NOT NULL and
    [created_at] is NOT NULL. *)
Record UserTable := mkUserTable {
  users_table : list UserRow;
  users_seq : Z
}.

Definition empty_users : UserTable := mkUserTable [] 0.

(** [cursor.execute("INSERT INTO users (...) VALUES (...)")]: sqlite3 refuses
    to bind an [int] that does not fit 64 bits. *)
Definition insert_user (db : UserTable) (user : User) : result (Z * UserTable) :=
  if (telegram_id user <? - 2 ^ 63) || (2 ^ 63 <=? telegram_id user) then Raise OverflowError
  else
    match created_at user with
    | None => Raise IntegrityError
    | Some created =>
        if existsb (fun r => urow_telegram_id r =? telegram_id user) (users_table db)
        then Raise IntegrityError
        else
          let rowid := users_seq db + 1 in
          Ok (rowid,
              mkUserTable
                (users_table db ++
                   [mkUserRow rowid (telegram_id user) (username user) created
                              (settings user)])
                rowid)
    end.

(** [DatabaseManager.add_user] *)
Definition add_user (db : UserTable) (user : User) : result (option Z) * UserTable :=
  match insert_user db user with
  | Ok (user_id, db') => (Ok (Some user_id), db')
  | Raise IntegrityError => (Ok None, db)
  | Raise e => (Raise e, db)
  end.

End Users.

(** ** bot/handlers.py: the number of news [/news] asks for *)

Module Handlers.
Import PyStr.

(** config/settings.py *)
Definition DEFAULT_NEWS_COUNT : Z := 4.

Section CmdNews.
(** [int(s)] of a [str]: the number, or ValueError. *)
Variable py_int : list Z -> result Z.

(** The first lines of the [try] of [cmd_news], on [message.text]. *)
Definition cmd_news_count (text : list Z) : result Z :=
  let args := split text in
  let* count :=
    match args with
    | _ :: arg :: _ => py_int arg
    | _ => Ok DEFAULT_NEWS_COUNT
    end in
  Ok (Z.max 1 (Z.min count 20)).

End CmdNews.

End Handlers.

(** ** Notions used in the statements *)

Module Notions.
Import Datetime Models DatabaseManager.

(** No row of the table clashes with the entry on a UNIQUE column. *)
Definition fresh_in (db : Database) (n : News) : Prop :=
  existsb (clashes (title n) (link n) (content_hash n)) (news_table db) = false.

(** The two entries carry the same (computed) fingerprint. *)
Definition same_fingerprint (n1 n2 : News) : Prop :=
  exists h, content_hash n1 = Some h /\ content_hash n2 = Some h.

(** [n2] repeats [n1] on the title, on the link or on the fingerprint. *)
Definition duplicate_of (n1 n2 : News) : Prop :=
  title n2 = title n1 \/ link n2 = link n1 \/ same_fingerprint n1 n2.

(** The triple the fingerprint is computed from. *)
Definition content (n : News) : string * string * string :=
  (title n, link n, description n).

(** Two articles that differ in title and link: "ab" at "c", and "a" at "bc". *)
Definition article_ab_c : News :=
  News_init 0 "ab" "c" "text" "Habr" (datetime_now 0) "ru" 0.0%float None None None.
Definition article_a_bc : News :=
  News_init 0 "a" "bc" "text" "Habr" (datetime_now 0) "ru" 0.0%float None None None.

(** The float nearest to [k / 100]: what [round(x, 2)] returns when the
    decimal it rounds to is [k] hundredths. *)
Definition hundredth (k : Z) : float := PyFloat.int_truediv k 100.

(** The hundredths between 0.00 and 10.00, as integers and as floats. *)
Definition centi_range : list Z := List.map Z.of_nat (seq 0 1001).
Definition hundredths : list (Z * float) :=
  List.map (fun k => (k, hundredth k)) centi_range.

(** Every hundredth lies between 0 and 10, and two hundredths compare as
    floats the way their numerators do as integers. *)
Definition pair_ordered (a b : Z * float) : bool :=
  Bool.eqb (PrimFloat.ltb (snd a) (snd b)) (fst a <? fst b)
  && Bool.eqb (PrimFloat.eqb (snd a) (snd b)) (fst a =? fst b)
  && Bool.eqb (PrimFloat.leb (snd a) (snd b)) (fst a <=? fst b).

Definition hundredth_ordered (hs : list (Z * float)) (a : Z * float) : bool :=
  PrimFloat.leb 0 (snd a) && PrimFloat.leb (snd a) 10 && forallb (pair_ordered a) hs.

(** Whole-word matches, as the specification words them: an occurrence of
    the term with no word character right before it and none right after
    it; occurrences are counted from left to right without overlap, for
    every term of the vocabulary, in the lowercased text. *)
Section WholeWord.
Import Unicode.
Context {ucd : UnicodeData}.

Definition whole_word_here (lit : list Z) (prev : option Z) (text : list Z) : bool :=
  negb (word_at prev)
  && match match_literal lit text with
     | Some rest => negb (word_at (List.head rest))
     | None => false
     end.

Fixpoint whole_word_count (lit : list Z) (skip : nat) (prev : option Z) (text : list Z) : nat :=
  match skip with
  | S k =>
      match text with
      | [] => O
      | c :: rest => whole_word_count lit k (Some c) rest
      end
  | O =>
      let hit := whole_word_here lit prev text in
      match text with
      | [] => if hit then 1%nat else O
      | c :: rest =>
          if hit then S (whole_word_count lit (Nat.pred (List.length lit)) (Some c) rest)
          else whole_word_count lit O (Some c) rest
      end
  end.

Definition whole_word_matches (title description : string) : nat :=
  let text := uni_lower (code_points (title ++ " " ++ description)) in
  fold_left (fun n keyword =>
               (n + whole_word_count (uni_lower (code_points keyword)) O None text)%nat)
            Settings.RELEVANCE_KEYWORDS O.

(** The keyword component the specification describes. *)
Definition claimed_keyword_score (title description : string) : float :=
  PyFloat.py_min 1.0%float
    (PyFloat.float_of_int (Z.of_nat (whole_word_matches title description)) / 5.0)%float.

(** The Unicode table says of the characters of a keyword what the table of
    ASCII and the Russian alphabet says: the same lowercase form, and the
    same answer of [isalnum] on its characters. *)
Definition agrees_on_keyword (ucd : UnicodeData) (keyword : string) : Prop :=
  uni_lower (UnicodeData := ucd) (code_points keyword)
  = uni_lower (UnicodeData := basic_unicode) (code_points keyword)
  /\ Forall (fun c => uni_isalnum (UnicodeData := ucd) c = basic_isalnum c)
            (uni_lower (UnicodeData := basic_unicode) (code_points keyword)).

(** A table that knows the Ukrainian letters too (U+0404, U+0406, U+0407,
    U+0490 and their lowercase forms U+0454, U+0456, U+0457, U+0491). *)
Definition ukrainian_unicode : UnicodeData :=
  {| uni_isalnum c :=
       basic_isalnum c
       || (c =? 0x404) || (c =? 0x406) || (c =? 0x407) || (c =? 0x490)
       || (c =? 0x454) || (c =? 0x456) || (c =? 0x457) || (c =? 0x491);
     uni_lower :=
       List.map (fun c => if (c =? 0x404) || (c =? 0x406) || (c =? 0x407) then c + 0x50
                          else if c =? 0x490 then 0x491
                          else basic_lower_char c) |}.

(** The term starts and ends with a word character. *)
Definition word_ended (lit : list Z) : bool :=
  match lit with
  | [] => false
  | c :: _ => is_word c && is_word (List.last lit 0)
  end.

End WholeWord.

(** A moment of day 739000, and entries published around it. *)
Definition wall_at (day hours minutes : Z) : Z :=
  day * us_per_day + (hours * 60 + minutes) * 60 * us_per_second.

Definition noon : Z := wall_at 739000 12 0.

Definition article_at (source : string) (published_at : datetime) : News :=
  News_init noon "New AI Coding Tool" "https://example.org/1" "A tool for coding"
            source published_at "en" 0.0%float None None None.

(** 10:00 at UTC+0, and 11:30 at UTC+5 (that is 06:30 at UTC+0): the first
    is the more recent instant, the second the later wall-clock reading. *)
Definition published_utc : datetime :=
  {| dt_wall := wall_at 739000 10 0; dt_tz := Some 0 |}.
Definition published_plus5 : datetime :=
  {| dt_wall := wall_at 739000 11 30; dt_tz := Some (timedelta_hours 5) |}.

(** The failure kinds of the specification's [FetchError]. *)
Inductive FetchErrorKind := KindTimeout | KindHTTPStatus | KindNetwork.

(** An attempt that does not end [fetch_feed]: any outcome other than a
    response with status 200. *)
Definition attempt_failed (o : RSSParser.http_outcome) : bool :=
  match o with
  | RSSParser.HttpResponse status _ => negb (status =? 200)
  | _ => true
  end.

(** A network that answers every request the same way. *)
Definition always (o : RSSParser.http_outcome) : string -> nat -> RSSParser.http_outcome :=
  fun _ _ => o.

Definition is_get (ev : RSSParser.event) : bool :=
  match ev with
  | RSSParser.EvGet _ _ => true
  | _ => false
  end.

Definition is_sleep (ev : RSSParser.event) : bool :=
  match ev with
  | RSSParser.EvSleep _ => true
  | _ => false
  end.

(** Every request of the trace goes to [url] with the configured timeout, and
    every pause lasts the configured delay. *)
Definition event_configured (url : string) (ev : RSSParser.event) : Prop :=
  match ev with
  | RSSParser.EvGet u timeout => u = url /\ timeout = Settings.REQUEST_TIMEOUT
  | RSSParser.EvSleep seconds => seconds = Settings.RETRY_DELAY
  | _ => True
  end.

Definition count_gets (trace : list RSSParser.event) : nat :=
  List.length (List.filter is_get trace).

Definition count_sleeps (trace : list RSSParser.event) : nat :=
  List.length (List.filter is_sleep trace).


(** What a task adds to the result of [parse_all_sources]. *)
Definition entries_of (r : result (list News)) : list News :=
  match r with
  | Ok l => l
  | Raise _ => []
  end.

(** Three sources: the feed of the second one times out at every attempt,
    the third one answers at the second attempt. *)
Definition three_sources : list Sources.RssSource :=
  [ Sources.mkSource "A" "https://a.example/feed" "en" 9.0%float "vibe-coding";
    Sources.mkSource "B" "https://b.example/feed" "en" 5.0%float "vibe-coding";
    Sources.mkSource "C" "https://c.example/feed" "ru" 8.0%float "vibe-coding" ].

Definition flaky_network (task : nat) (url : string) (attempt : nat) : RSSParser.http_outcome :=
  match task, attempt with
  | O, _ => RSSParser.HttpResponse 200 "first feed"
  | 1%nat, _ => RSSParser.HttpTimeout
  | _, O => RSSParser.HttpResponse 503 "busy"
  | _, _ => RSSParser.HttpResponse 200 "third feed"
  end.

(** A stand-in for feedparser: one entry, titled as the payload. *)
Definition one_entry_feed (content : string) : result (list RSSParser.FeedEntry) :=
  Ok [RSSParser.mkEntry (Some content) (Some ("https://example.org/" ++ content)%string)
                        None None None None None].

(** A cycle of the scheduler is a call of [_send_scheduled_digest]: what
    wakes the loop up at the end of a cycle is the outcome of that call. *)
Definition digest_cycle (i : NewsScheduler.input) : Prop :=
  match i with
  | NewsScheduler.CycleDone r => exists body, r = NewsScheduler._send_scheduled_digest body
  | _ => True
  end.

(** The scheduler never left its loop and is still running. *)
Definition in_loop (s : NewsScheduler.scheduler) : Prop :=
  NewsScheduler.is_running s = true /\ NewsScheduler.at_place s <> NewsScheduler.LoopExited.

(** The key of an element is the hundredth number [rank]. *)
Definition ranked {A} (key : A -> float) (rank : A -> Z) (x : A) : Prop :=
  0 <= rank x <= 1000 /\ key x = hundredth (rank x).

(** The numerator of a hundredth, read back from the table. *)
Definition centi (x : float) : Z :=
  fold_right (fun p acc => if PrimFloat.eqb (snd p) x then fst p else acc) 0 hundredths.

End Notions.

(** ** Notions on the store, the scheduler, the feeds and the texts *)

Module StoreNotions.
Import Models DatabaseManager.

Definition titles (db : Database) : list string := List.map row_title (news_table db).
Definition links (db : Database) : list string := List.map row_link (news_table db).
Definition fingerprints (db : Database) : list string :=
  omap row_content_hash (news_table db).
Definition ids (db : Database) : list Z := List.map row_id (news_table db).

(** What the UNIQUE constraints and AUTOINCREMENT promise: no two rows with
    the same title, link or (non-NULL) fingerprint; ids in increasing order,
    positive, and none above the counter. *)
Record consistent (db : Database) : Prop := mkConsistent {
  titles_unique : NoDup (titles db);
  links_unique : NoDup (links db);
  fingerprints_unique : NoDup (fingerprints db);
  ids_increasing : StronglySorted Z.lt (ids db);
  ids_issued : Forall (fun i => 0 < i <= news_seq db) (ids db);
  counter_started : 0 <= news_seq db
}.

(** The calls that write to the table [news]. *)
Inductive call :=
| CallAddNews (news : News)
| CallClearAllNews.

Definition after_call (db : Database) (c : call) : Database :=
  match c with
  | CallAddNews news => snd (add_news db news)
  | CallClearAllNews => snd (clear_all_news db)
  end.

Definition after_calls (db : Database) (calls : list call) : Database :=
  fold_left after_call calls db.

(** [add_news] would take the entry for a duplicate (or refuse its missing
    parsing time). *)
Definition known (db : Database) (n : News) : Prop :=
  parsed_at n = None
  \/ existsb (clashes (title n) (link n) (content_hash n)) (news_table db) = true.

End StoreNotions.

Module ScheduleNotions.
Import DailySchedule.


End ScheduleNotions.

Module ParserNotions.
Import Datetime Models RSSParser.

(** What [parse_feed_content] makes of one feed entry: the fields of the
    entry the news comes from. *)
Record built_from (strip_html_tags : string -> string) (now : Z)
    (feed : Sources.RssSource) (entry : FeedEntry) (n : News) : Prop := mkBuilt {
  built_title : title n = strip_html_tags (default "Без заголовка" (entry_title entry));
  built_link : link n = default "" (entry_link entry);
  built_description :
    description n
    = strip_html_tags (default (default "" (entry_description entry)) (entry_summary entry));
  built_source : source n = Sources.src_name feed;
  built_language : language n = Sources.src_language feed;
  built_rating : rating n = 0.0%float;
  built_parsed_at : parsed_at n = Some (datetime_now now);
  built_hash : content_hash n = Some (calculate_hash n);
  built_id : news_id n = None
}.

(** No field of the entry gives a date: absent, empty, or refused by the
    date parser. *)
Definition undated (date_parser_parse : string -> result datetime) (entry : FeedEntry) : Prop :=
  forall s, In (Some s) [entry_published entry; entry_updated entry; entry_created entry] ->
            s = "" \/ exists e, date_parser_parse s = Raise e.

(** The news of an entry and the readings of the clock behind it:
    [News.__post_init__] made the reading number [k], and [_parse_date],
    when it needed the current time, the reading before that one. *)
Record built_at (strip_html_tags : string -> string)
    (date_parser_parse : string -> result datetime) (ticks : nat -> Z)
    (feed : Sources.RssSource) (entry : FeedEntry) (k : nat) (n : News) : Prop := mkBuiltAt {
  built_fields : built_from strip_html_tags (ticks k) feed entry n;
  built_published :
    published_at n = _parse_date date_parser_parse (ticks (Nat.pred k)) entry;
  built_own_reading : undated date_parser_parse entry -> (0 < k)%nat
}.

(** A feed of two entries that carry a title and no link. *)
Definition two_entries_no_link (content : string) : result (list FeedEntry) :=
  Ok [mkEntry (Some "first") None None None None None None;
      mkEntry (Some "second") None None None None None None].

End ParserNotions.

Module TextNotions.
Import PyStr.

(** A word: some characters, none of them whitespace. *)
Definition word (w : list Z) : Prop := w <> [] /\ forallb (fun c => negb (isspace c)) w = true.

(** One of the characters [escape_markdown] escapes, and what it puts for a
    character. *)
Definition is_special (c : Z) : bool := existsb (Z.eqb c) Formatter.special_chars.
Definition escape_char (c : Z) : list Z := if is_special c then [ord "\"; c] else [c].

(** The code points of an ASCII text. *)
Definition text_of (s : string) : list Z := List.map ord (list_ascii_of_string s).

End TextNotions.

(** * Properties *)

(** ** hashlib.sha256: the test vectors of FIPS 180-4 *)

Example hexdigest_abc :
  SHA256.hexdigest "abc" = "ba7816bf8f01cfea414140de5dae2223b00361a396177a9cb410ff61f20015ad".
Proof. vm_compute. reflexivity. Qed.

Example hexdigest_empty :
  SHA256.hexdigest "" = "e3b0c44298fc1c149afbf4c8996fb92427ae41e4649b934ca495991b7852b855".
Proof. vm_compute. reflexivity. Qed.

Example hexdigest_two_blocks :
  SHA256.hexdigest
    "abcdbcdecdefdefgefghfghighijhijkijkljklmklmnlmnomnopnopqabcdbcdecdefdefgefghfghighijhijkijkljklmklmnlmnomnopnopq"
  = "59f109d9533b2b70e7c3b814a2bd218f78ea5d3714455bc67987cf0d664399cf".
Proof. vm_compute. reflexivity. Qed.

(** ** Deduplication: [News.calculate_hash] and [DatabaseManager.add_news] *)

Section Dedup.
Import Datetime Models DatabaseManager Notions.

Lemma post_init_content clock n : content (post_init clock n) = content n.
Proof. unfold post_init, content. destruct (parsed_at n), (content_hash n); reflexivity. Qed.

Lemma calculate_hash_content n n' : content n = content n' -> calculate_hash n = calculate_hash n'.
Proof. unfold content, calculate_hash. intros H. injection H as -> -> ->. reflexivity. Qed.

(** An entry built without an explicit hash carries the hash of its own
    title, link and description, and always has a parsing time. *)
Lemma News_init_content_hash clock t l d s p lang r pa i :
  content_hash (News_init clock t l d s p lang r pa None i)
  = Some (SHA256.hexdigest (t ++ l ++ d)).
Proof. unfold News_init, post_init. destruct pa; reflexivity. Qed.

Lemma News_init_parsed_at clock t l d s p lang r pa h i :
  parsed_at (News_init clock t l d s p lang r pa h i) <> None.
Proof. unfold News_init, post_init. destruct pa, h; simpl; discriminate. Qed.

Lemma News_init_fields clock t l d s p lang r pa h i :
  let n := News_init clock t l d s p lang r pa h i in
  title n = t /\ link n = l /\ description n = d.
Proof. unfold News_init, post_init. destruct pa, h; simpl; auto. Qed.

Lemma clashes_own_row n i parsed n2 :
  duplicate_of n n2 ->
  clashes (title n2) (link n2) (content_hash n2)
    (mkRow i (title n) (link n) (description n) (source n) (published_at n) parsed
           (language n) (rating n) (content_hash n)) = true.
Proof.
  unfold clashes; simpl. intros [Ht | [Hl | (h & H1 & H2)]].
  - rewrite Ht, String.eqb_refl. reflexivity.
  - rewrite Hl, String.eqb_refl. apply orb_true_iff. left. apply orb_true_r.
  - rewrite H1, H2, String.eqb_refl. apply orb_true_r.
Qed.

Lemma add_news_fresh db n parsed :
  parsed_at n = Some parsed -> fresh_in db n ->
  add_news db n
  = (Ok (Some (news_seq db + 1)),
     mkDatabase
       (news_table db ++
          [mkRow (news_seq db + 1) (title n) (link n) (description n) (source n)
                 (published_at n) parsed (language n) (rating n) (content_hash n)])
       (news_seq db + 1)).
Proof.
  unfold fresh_in, add_news, insert_news. intros -> ->. reflexivity.
Qed.

Lemma add_news_clash db n :
  existsb (clashes (title n) (link n) (content_hash n)) (news_table db) = true ->
  add_news db n = (Ok None, db).
Proof.
  unfold add_news, insert_news. intros ->. destruct (parsed_at n); reflexivity.
Qed.

(** C1. The first insertion of an entry into a store holding nothing that
    clashes with it returns an id; a second insertion of an entry with the
    same title, or the same link, or the same fingerprint returns [None]
    without raising and leaves the store as it was.  The fingerprint of an
    entry depends on its title, link and description only: whatever the
    source, language, rating and timestamps, entries built from the same
    three fields carry the same fingerprint. *)
Theorem add_news_twice db n1 n2 :
  parsed_at n1 <> None -> fresh_in db n1 -> duplicate_of n1 n2 ->
  (exists id db1,
      add_news db n1 = (Ok (Some id), db1) /\ add_news db1 n2 = (Ok None, db1))
  /\ (forall n n', content n = content n' -> calculate_hash n = calculate_hash n')
  /\ (forall clock clock' s s' p p' lang lang' r r' pa pa' i i',
         same_fingerprint
           (News_init clock (title n1) (link n1) (description n1) s p lang r pa None i)
           (News_init clock' (title n1) (link n1) (description n1) s' p' lang' r' pa' None i')).
Proof.
  intros Hp Hfresh Hdup. split; [| split].
  - destruct (parsed_at n1) as [parsed |] eqn:Hparsed; [| congruence].
    eexists _, _. split.
    + apply (add_news_fresh _ _ _ Hparsed Hfresh).
    + apply add_news_clash. simpl. rewrite existsb_app. simpl.
      rewrite (clashes_own_row n1 _ parsed n2 Hdup). rewrite orb_true_r. reflexivity.
  - apply calculate_hash_content.
  - intros. eexists. split; apply News_init_content_hash.
Qed.

(** The same article fetched from two sources at two times: one insert. *)
Lemma add_news_twice_witness :
  let n1 := News_init 10 "New AI Coding Tool" "https://a.example/1" "about code"
                      "Habr" (datetime_now 5) "ru" 0.0%float None None None in
  let n2 := News_init 99 "New AI Coding Tool" "https://a.example/1" "about code"
                      "Dev.to" (datetime_now 70) "en" 7.5%float None None None in
  exists id db1,
    add_news empty_database n1 = (Ok (Some id), db1)
    /\ add_news db1 n2 = (Ok None, db1).
Proof.
  intros n1 n2.
  refine (proj1 (add_news_twice empty_database n1 n2 _ _ _)).
  - apply News_init_parsed_at.
  - reflexivity.
  - left. vm_compute. reflexivity.
Defined.

(** C10. The fingerprint is not injective in (title, link, description): the
    three fields are concatenated without a separator, so the articles "ab"
    at "c" and "a" at "bc" (same description) have the same hash input and
    the same fingerprint, and the store takes the second for a duplicate of
    the first although neither its title nor its link is in the store. *)
Theorem calculate_hash_not_injective :
  content article_ab_c <> content article_a_bc
  /\ title article_ab_c ++ link article_ab_c ++ description article_ab_c
     = title article_a_bc ++ link article_a_bc ++ description article_a_bc
  /\ calculate_hash article_ab_c = calculate_hash article_a_bc
  /\ same_fingerprint article_ab_c article_a_bc
  /\ title article_ab_c <> title article_a_bc
  /\ link article_ab_c <> link article_a_bc
  /\ exists id db1,
       add_news empty_database article_ab_c = (Ok (Some id), db1)
       /\ add_news db1 article_a_bc = (Ok None, db1).
Proof.
  split; [vm_compute; discriminate |].
  split; [vm_compute; reflexivity |].
  split; [vm_compute; reflexivity |].
  split; [exists (SHA256.hexdigest "abctext"); split; vm_compute; reflexivity |].
  split; [vm_compute; discriminate |].
  split; [vm_compute; discriminate |].
  eexists _, _. split; vm_compute; reflexivity.
Qed.

End Dedup.

(** ** Python floats: clamping and rounding to two decimals *)

Section FloatFacts.
Import PyFloat Notions.

Lemma Prim2SF_zero : Prim2SF 0%float = S754_zero false.
Proof. reflexivity. Qed.

Lemma Prim2SF_ten : Prim2SF 10%float = S754_finite false 5629499534213120 (-49).
Proof. reflexivity. Qed.

Lemma ltb_leb x y : PrimFloat.ltb x y = true -> PrimFloat.leb x y = true.
Proof.
  rewrite ltb_spec, leb_spec. unfold SFltb, SFleb.
  destruct (SFcompare (Prim2SF x) (Prim2SF y)) as [[| |] |]; congruence.
Qed.

Lemma ltb_leb_false x y : PrimFloat.ltb x y = true -> PrimFloat.leb y x = false.
Proof.
  rewrite ltb_spec, leb_spec. unfold SFltb, SFleb.
  destruct (Prim2SF x) as [[|] | [|] | | [|] mx ex], (Prim2SF y) as [[|] | [|] | | [|] my ey];
    simpl; try congruence.
  - destruct (Z.compare_spec ex ey), (Z.compare_spec ey ex); try lia; try congruence.
    subst. rewrite !Pos.compare_cont_spec. simpl.
    rewrite (Pos.compare_antisym my mx). destruct (Pos.compare my mx); simpl; congruence.
  - destruct (Z.compare_spec ex ey), (Z.compare_spec ey ex); try lia; try congruence.
    subst. rewrite !Pos.compare_cont_spec. simpl.
    rewrite (Pos.compare_antisym my mx). destruct (Pos.compare my mx); simpl; congruence.
Qed.

Lemma digits2_pos_bound m : Zpos m < 2 ^ Zpos (digits2_pos m).
Proof.
  induction m as [p IH | p IH |]; simpl digits2_pos.
  - rewrite Pos2Z.inj_succ, Z.pow_succ_r by lia. lia.
  - rewrite Pos2Z.inj_succ, Z.pow_succ_r by lia. lia.
  - reflexivity.
Qed.

(** The mantissa of a binary64 float has at most 53 bits. *)
Lemma valid_mantissa_bound x s m e :
  Prim2SF x = S754_finite s m e -> Zpos m < 2 ^ 53.
Proof.
  intros Hx. pose proof (Prim2SF_valid x) as Hv. rewrite Hx in Hv.
  unfold valid_binary, bounded, canonical_mantissa, fexp in Hv.
  apply andb_true_iff in Hv as [Hc _]. apply Z.eqb_eq in Hc.
  pose proof (digits2_pos_bound m) as Hd.
  assert (Zpos (digits2_pos m) <= 53) as Hle by (unfold prec in Hc; lia).
  eapply Z.lt_le_trans; [exact Hd |]. apply Z.pow_le_mono_r; lia.
Qed.

Lemma round_half_even_bounds n k b :
  0 <= k -> 0 <= n < b * 2 ^ k -> 0 <= round_half_even n k <= b.
Proof.
  intros Hk [Hn Hb]. unfold round_half_even.
  assert (0 < 2 ^ k) as Hd by (apply Z.pow_pos_nonneg; lia).
  assert (0 <= n / 2 ^ k) by (apply Z.div_pos; lia).
  assert (n / 2 ^ k < b) by (apply Z.div_lt_upper_bound; lia).
  destruct (2 * (n mod 2 ^ k) ?= 2 ^ k); [destruct (Z.even _) | |]; lia.
Qed.

(** A float strictly between 0 and 10 is rounded to a number of hundredths
    between 0 and 1000. *)
Lemma py_round2_inside t :
  PrimFloat.ltb 0 t = true -> PrimFloat.ltb t 10 = true ->
  exists k, 0 <= k <= 1000 /\ py_round2 t = hundredth k.
Proof.
  rewrite !ltb_spec, Prim2SF_zero, Prim2SF_ten. intros H0 H10.
  unfold py_round2. pose proof (valid_mantissa_bound t) as Hm.
  destruct (Prim2SF t) as [s | s | | s m e];
    [destruct s; discriminate | destruct s; discriminate | discriminate |].
  destruct s; [discriminate |]. specialize (Hm false m e eq_refl).
  unfold SFltb, SFcompare in H10.
  assert (e <= -49 /\ Zpos m * 100 < 1000 * 2 ^ (- e)) as [He Hn].
  { destruct (Z.compare_spec e (-49)) as [-> | Hlt | Hgt]; try discriminate.
    - rewrite Pos.compare_cont_spec in H10. simpl in H10.
      destruct (Pos.compare_spec m 5629499534213120) as [| Hlt |]; try discriminate.
      apply Pos2Z.pos_lt_pos in Hlt.
      split; [lia |]. change (2 ^ (- -49)) with 562949953421312. lia.
    - split; [lia |].
      assert (2 ^ 50 <= 2 ^ (- e)) by (apply Z.pow_le_mono_r; lia).
      change (2 ^ 53) with (8 * 2 ^ 50) in Hm. lia. }
  destruct (Z.leb_spec 0 e); [lia |].
  pose proof (round_half_even_bounds (Zpos m * 100) (- e) 1000) as Hr.
  set (k := round_half_even (Zpos m * 100) (- e)) in *.
  exists k. split; [apply Hr; lia |].
  unfold hundredth, int_truediv.
  replace (k <? 0) with false by (symmetry; apply Z.ltb_ge; lia).
  rewrite Z.abs_eq by lia. reflexivity.
Qed.

(** Whatever the float, [NaN] and the infinities included, clamping it to
    [0, 10] the way [calculate_rating] does and rounding the result gives a
    number of hundredths between 0 and 1000. *)
Lemma round_clamp_hundredth t :
  exists k, 0 <= k <= 1000
            /\ py_round2 (py_max 0 (py_min 10 t)) = hundredth k.
Proof.
  unfold py_min. destruct (PrimFloat.ltb t 10) eqn:H10.
  - unfold py_max. destruct (PrimFloat.ltb 0 t) eqn:H0.
    + apply py_round2_inside; assumption.
    + exists 0. split; [lia | reflexivity].
  - exists 1000. split; [lia | reflexivity].
Qed.

Lemma centi_range_spec k : 0 <= k <= 1000 -> In k centi_range.
Proof.
  intros Hk. unfold centi_range. apply in_map_iff. exists (Z.to_nat k).
  split; [lia |]. apply in_seq. lia.
Qed.

(** The hundredths are ordered as floats the way their numerators are as
    integers, and they all lie between 0 and 10. *)
Lemma hundredth_table : forallb (hundredth_ordered hundredths) hundredths = true.
Proof. vm_compute. reflexivity. Qed.

Lemma hundredth_in k : 0 <= k <= 1000 -> In (k, hundredth k) hundredths.
Proof.
  intros Hk. unfold hundredths.
  apply (in_map (fun k => (k, hundredth k))), centi_range_spec, Hk.
Qed.

Lemma ordered_table_pair hs a b :
  forallb (hundredth_ordered hs) hs = true -> In a hs -> In b hs ->
  (PrimFloat.leb 0 (snd a) = true /\ PrimFloat.leb (snd a) 10 = true)
  /\ PrimFloat.ltb (snd a) (snd b) = (fst a <? fst b)
  /\ PrimFloat.eqb (snd a) (snd b) = (fst a =? fst b)
  /\ PrimFloat.leb (snd a) (snd b) = (fst a <=? fst b).
Proof.
  intros T Ha Hb. rewrite forallb_forall in T. specialize (T a Ha).
  unfold hundredth_ordered in T.
  apply andb_true_iff in T as [T1 T2]. apply andb_true_iff in T1.
  rewrite forallb_forall in T2. specialize (T2 b Hb). unfold pair_ordered in T2.
  apply andb_true_iff in T2 as [T3 T5]. apply andb_true_iff in T3 as [T3 T4].
  apply Bool.eqb_prop in T3, T4, T5. auto.
Qed.

Lemma hundredth_pair a b :
  0 <= a <= 1000 -> 0 <= b <= 1000 ->
  (PrimFloat.leb 0 (hundredth a) = true /\ PrimFloat.leb (hundredth a) 10 = true)
  /\ PrimFloat.ltb (hundredth a) (hundredth b) = (a <? b)
  /\ PrimFloat.eqb (hundredth a) (hundredth b) = (a =? b)
  /\ PrimFloat.leb (hundredth a) (hundredth b) = (a <=? b).
Proof.
  intros Ha Hb.
  exact (ordered_table_pair hundredths (a, hundredth a) (b, hundredth b)
           hundredth_table (hundredth_in a Ha) (hundredth_in b Hb)).
Qed.

Lemma hundredth_range k :
  0 <= k <= 1000 ->
  PrimFloat.leb 0 (hundredth k) = true /\ PrimFloat.leb (hundredth k) 10 = true.
Proof. intros Hk. apply (hundredth_pair k k Hk Hk). Qed.

Lemma hundredth_ltb a b :
  0 <= a <= 1000 -> 0 <= b <= 1000 ->
  PrimFloat.ltb (hundredth a) (hundredth b) = (a <? b).
Proof. intros Ha Hb. apply (hundredth_pair a b Ha Hb). Qed.

Lemma hundredth_eqb a b :
  0 <= a <= 1000 -> 0 <= b <= 1000 ->
  PrimFloat.eqb (hundredth a) (hundredth b) = (a =? b).
Proof. intros Ha Hb. apply (hundredth_pair a b Ha Hb). Qed.

Lemma hundredth_leb a b :
  0 <= a <= 1000 -> 0 <= b <= 1000 ->
  PrimFloat.leb (hundredth a) (hundredth b) = (a <=? b).
Proof. intros Ha Hb. apply (hundredth_pair a b Ha Hb). Qed.

(** Clamping: at or below 0 it gives 0, at or above 10 it gives 10, and in
    between it leaves the float as it is. *)
Lemma clamp_low t : PrimFloat.leb t 0 = true -> py_max 0 (py_min 10 t) = 0%float.
Proof.
  intros Hle. unfold py_min, py_max.
  assert (PrimFloat.ltb 0 t = false) as H0.
  { destruct (PrimFloat.ltb 0 t) eqn:E; [| reflexivity].
    apply ltb_leb_false in E. congruence. }
  assert (PrimFloat.ltb t 10 = true) as H10.
  { rewrite leb_spec, Prim2SF_zero in Hle. rewrite ltb_spec, Prim2SF_ten.
    destruct (Prim2SF t) as [s | s | | s m e]; try destruct s; try discriminate; reflexivity. }
  rewrite H10, H0. reflexivity.
Qed.

Lemma clamp_high t : PrimFloat.leb 10 t = true -> py_max 0 (py_min 10 t) = 10%float.
Proof.
  intros Hle. unfold py_min, py_max.
  assert (PrimFloat.ltb t 10 = false) as H10.
  { destruct (PrimFloat.ltb t 10) eqn:E; [| reflexivity].
    apply ltb_leb_false in E. congruence. }
  rewrite H10. reflexivity.
Qed.

Lemma clamp_inside t :
  PrimFloat.ltb 0 t = true -> PrimFloat.ltb t 10 = true -> py_max 0 (py_min 10 t) = t.
Proof. intros H0 H10. unfold py_min, py_max. rewrite H10, H0. reflexivity. Qed.

End FloatFacts.

(** ** The ranking engine *)

Section RankingFacts.
Import Datetime Models Settings Sources Unicode PyFloat RankingEngine Notions.
Context {ucd : UnicodeData}.

(** Every rating is a number of hundredths between 0 and 1000. *)
Lemma calculate_rating_hundredth clock news article_length :
  exists k, 0 <= k <= 1000 /\ calculate_rating clock news article_length = hundredth k.
Proof. unfold calculate_rating. apply round_clamp_hundredth. Qed.

(** C2. With the clock reading fixed, [calculate_rating] is a function of
    the publication time, the source, the title, the description and the
    article length: two entries that agree on them get the same rating.  The
    rating is the weighted sum freshness * 0.3 + source * 0.25 + keywords *
    0.25 + length * 0.2, times 10.0, clamped to [0, 10] (0 at or below 0, 10
    at or above 10, unchanged in between) and rounded to two decimals (it is
    the float nearest to some k / 100), and it lies within [0, 10]. *)
Theorem calculate_rating_spec clock (news news' : News) article_length :
  published_at news' = published_at news -> source news' = source news ->
  title news' = title news -> description news' = description news ->
  let total :=
    (_calculate_freshness_score clock (published_at news) * 0.3
     + _calculate_source_score (source news) * 0.25
     + _calculate_keyword_score (title news) (description news) * 0.25
     + _calculate_length_score article_length * 0.2)%float in
  let scaled := (total * 10.0)%float in
  let r := calculate_rating clock news article_length in
  calculate_rating clock news' article_length = r
  /\ r = py_round2 (py_max 0 (py_min 10 scaled))
  /\ (PrimFloat.leb scaled 0 = true -> r = 0%float)
  /\ (PrimFloat.leb 10 scaled = true -> r = 10%float)
  /\ (PrimFloat.ltb 0 scaled = true -> PrimFloat.ltb scaled 10 = true ->
      r = py_round2 scaled)
  /\ (exists k, 0 <= k <= 1000 /\ r = hundredth k)
  /\ PrimFloat.leb 0 r = true /\ PrimFloat.leb r 10 = true.
Proof.
  intros Hp Hs Ht Hd total scaled r.
  assert (r = py_round2 (py_max 0 (py_min 10 scaled))) as Hr by reflexivity.
  split; [unfold r, calculate_rating; rewrite Hp, Hs, Ht, Hd; reflexivity |].
  split; [exact Hr |].
  split; [intros H; rewrite Hr, (clamp_low _ H); reflexivity |].
  split; [intros H; rewrite Hr, (clamp_high _ H); reflexivity |].
  split; [intros H0 H10; rewrite Hr, (clamp_inside _ H0 H10); reflexivity |].
  destruct (calculate_rating_hundredth clock news article_length) as (k & Hk & E).
  fold r in E. split; [exists k; auto |].
  rewrite E. apply hundredth_range, Hk.
Qed.

Lemma naive_wall p :
  dt_wall match dt_tz p with
          | Some _ => replace_tzinfo_None p
          | None => p
          end = dt_wall p.
Proof. destruct (dt_tz p); reflexivity. Qed.

(** The freshness score is a decreasing step function of the age, the age
    being the clock reading minus the wall-clock reading of the timestamp. *)
Lemma freshness_monotone clock p1 p2 :
  dt_wall p2 <= dt_wall p1 ->
  PrimFloat.leb (_calculate_freshness_score clock p2)
                (_calculate_freshness_score clock p1) = true.
Proof.
  intros Hlt. unfold _calculate_freshness_score.
  rewrite !naive_wall. unfold datetime_now, timedelta_hours, timedelta_days, us_per_day,
    us_per_second. cbn [dt_wall].
  repeat match goal with
         | |- context [?a <? ?b] => destruct (Z.ltb_spec a b)
         end; try lia; reflexivity.
Qed.

(** C5 (amended). For a fixed clock reading, of two entries the one whose
    [published_at] is the later wall-clock reading, any timezone offset
    dropped, never gets a lower freshness component than the other; this is
    the strictly more recent one whenever the two timestamps carry the same
    offset or none. *)
Theorem freshness_monotone_wall_clock clock (n1 n2 : News) :
  (dt_wall (published_at n2) < dt_wall (published_at n1) ->
   PrimFloat.leb (_calculate_freshness_score clock (published_at n2))
                 (_calculate_freshness_score clock (published_at n1)) = true)
  /\ (dt_tz (published_at n1) = dt_tz (published_at n2) ->
      datetime_gt (published_at n1) (published_at n2) = Ok true ->
      PrimFloat.leb (_calculate_freshness_score clock (published_at n2))
                    (_calculate_freshness_score clock (published_at n1)) = true).
Proof.
  split.
  - intros H. apply freshness_monotone. lia.
  - intros Htz Hgt. apply freshness_monotone.
    unfold datetime_gt, datetime_sub in Hgt. rewrite Htz in Hgt.
    destruct (dt_tz (published_at n2)); simpl in Hgt;
      injection Hgt as Hgt; apply Z.ltb_lt in Hgt; lia.
Qed.

End RankingFacts.

(** ** Sorting by rating: [sorted(..., key=..., reverse=True)] *)

Section StableSort.
Import PyFloat RankingEngine Notions.
Variable A : Type.
Variable key : A -> float.
Variable rank : A -> Z.

Let ge_rank (a b : A) : Prop := rank b <= rank a.

Lemma insert_reverse_Permutation x l : Permutation (insert_reverse key x l) (x :: l).
Proof.
  induction l as [| y l IH]; simpl.
  - reflexivity.
  - destruct (PrimFloat.ltb (key x) (key y)).
    + rewrite IH. apply perm_swap.
    + reflexivity.
Qed.

Lemma sorted_reverse_Permutation l : Permutation (sorted_reverse key l) l.
Proof.
  induction l as [| x l IH]; simpl.
  - reflexivity.
  - rewrite insert_reverse_Permutation. apply perm_skip, IH.
Qed.

Lemma ranked_ltb x y :
  ranked key rank x -> ranked key rank y ->
  PrimFloat.ltb (key x) (key y) = (rank x <? rank y).
Proof. intros [Hx ->] [Hy ->]. apply hundredth_ltb; assumption. Qed.

Lemma insert_reverse_sorted x l :
  ranked key rank x -> Forall (ranked key rank) l ->
  StronglySorted ge_rank l -> StronglySorted ge_rank (insert_reverse key x l).
Proof.
  intros Hx Hl Hs. induction Hs as [| y l Hs IH Hy]; simpl.
  - repeat constructor.
  - inversion Hl as [| ? ? Hry Hrl]; subst.
    rewrite (ranked_ltb x y Hx Hry). destruct (Z.ltb_spec (rank x) (rank y)) as [Hlt | Hge].
    + constructor; [apply IH, Hrl |].
      rewrite insert_reverse_Permutation. constructor; [unfold ge_rank; lia | exact Hy].
    + constructor; [constructor; assumption |].
      constructor; [exact Hge |].
      eapply List.Forall_impl; [| exact Hy]. unfold ge_rank. intros z Hz. simpl in Hz. lia.
Qed.

Lemma sorted_reverse_ranked l :
  Forall (ranked key rank) l -> Forall (ranked key rank) (sorted_reverse key l).
Proof. intros H. rewrite sorted_reverse_Permutation. exact H. Qed.

Lemma sorted_reverse_sorted l :
  Forall (ranked key rank) l -> StronglySorted ge_rank (sorted_reverse key l).
Proof.
  induction 1 as [| x l Hx Hl IH]; simpl.
  - constructor.
  - apply insert_reverse_sorted; [exact Hx | apply sorted_reverse_ranked, Hl | exact IH].
Qed.

(** Inserting an element does not move it past an element of the same rank. *)
Lemma insert_reverse_filter r x l :
  ranked key rank x -> Forall (ranked key rank) l ->
  List.filter (fun y => rank y =? r) (insert_reverse key x l)
  = List.filter (fun y => rank y =? r) (x :: l).
Proof.
  intros Hx Hl. induction Hl as [| y l Hy Hl IH]; [reflexivity |].
  simpl insert_reverse. rewrite (ranked_ltb x y Hx Hy).
  destruct (Z.ltb_spec (rank x) (rank y)) as [Hlt | Hge]; [| reflexivity].
  simpl List.filter. simpl List.filter in IH. rewrite IH.
  destruct (Z.eqb_spec (rank x) r), (Z.eqb_spec (rank y) r); try reflexivity; lia.
Qed.

Lemma sorted_reverse_filter r l :
  Forall (ranked key rank) l ->
  List.filter (fun y => rank y =? r) (sorted_reverse key l)
  = List.filter (fun y => rank y =? r) l.
Proof.
  induction 1 as [| x l Hx Hl IH]; [reflexivity |].
  simpl sorted_reverse.
  rewrite (insert_reverse_filter r x _ Hx (sorted_reverse_ranked l Hl)).
  simpl. rewrite IH. reflexivity.
Qed.

(** Sorted by decreasing rank is sorted by decreasing key. *)
Lemma sorted_rank_key l :
  Forall (ranked key rank) l -> StronglySorted ge_rank l ->
  StronglySorted (fun a b => PrimFloat.leb (key b) (key a) = true) l.
Proof.
  intros Hr Hs. induction Hs as [| a l Hs IH Ha]; constructor.
  - apply IH. inversion Hr; assumption.
  - inversion Hr as [| ? ? [Hka Ea] Hl]; subst.
    rewrite List.Forall_forall in Ha, Hl |- *. intros b Hb.
    destruct (Hl b Hb) as [Hkb Eb]. rewrite Ea, Eb, hundredth_leb by assumption.
    apply Z.leb_le. apply (Ha b Hb).
Qed.

End StableSort.

Section RankNewsList.
Import Datetime Models Settings Sources Unicode PyFloat RankingEngine Notions.
Context {ucd : UnicodeData}.

Lemma centi_fold hs k x :
  (forall p, In p hs -> PrimFloat.eqb (snd p) x = (fst p =? k)) ->
  In (k, x) hs ->
  fold_right (fun p acc => if PrimFloat.eqb (snd p) x then fst p else acc) 0 hs = k.
Proof.
  induction hs as [| p hs IH]; intros Hall Hin; [destruct Hin |].
  simpl. rewrite (Hall p (or_introl eq_refl)).
  destruct (Z.eqb_spec (fst p) k) as [E | NE]; [exact E |].
  apply IH.
  - intros q Hq. apply Hall. right. exact Hq.
  - destruct Hin as [-> | Hin]; [simpl in NE; congruence | exact Hin].
Qed.

Lemma centi_hundredth k : 0 <= k <= 1000 -> centi (hundredth k) = k.
Proof.
  intros Hk. unfold centi. apply centi_fold; [| apply hundredth_in, Hk].
  intros [a x] Hin. unfold hundredths in Hin. apply in_map_iff in Hin as (a' & E & Ha).
  injection E as -> <-. simpl. apply hundredth_eqb; [| exact Hk].
  unfold centi_range in Ha. apply in_map_iff in Ha as (n & <- & Hn).
  apply in_seq in Hn. lia.
Qed.

Lemma rate_all_cons clock lengths n l :
  rate_all clock lengths (n :: l)
  = set_rating n (calculate_rating (clock O) n (default 0 (lengths !! link n)))
      :: rate_all (fun i => clock (S i)) lengths l.
Proof. reflexivity. Qed.

(** Every entry leaves the rating loop with a rating of some hundredths. *)
Lemma rate_all_ranked lengths l :
  forall clock,
    Forall (ranked rating (fun n => centi (rating n))) (rate_all clock lengths l).
Proof.
  induction l as [| n l IH]; intros clock; [constructor |].
  rewrite rate_all_cons. constructor; [| apply IH].
  destruct (calculate_rating_hundredth (clock O) n (default 0 (lengths !! link n)))
    as (k & Hk & E).
  unfold ranked. destruct n; simpl in *. rewrite E, (centi_hundredth k Hk). auto.
Qed.

Lemma rate_all_entries lengths l :
  forall clock,
    List.map (fun n => set_rating n 0%float) (rate_all clock lengths l)
    = List.map (fun n => set_rating n 0%float) l.
Proof.
  induction l as [| n l IH]; intros clock; [reflexivity |].
  rewrite rate_all_cons. simpl. rewrite IH. reflexivity.
Qed.

(** C9. [rank_news_list] returns the entries of its input, each with its
    computed rating stored in it, in another order (a permutation); the
    result is sorted in descending order of the rating; and the sort is
    stable: the entries whose rating equals that of a given entry appear in
    the result in the order they have in the input. *)
Theorem rank_news_list_sorted_stable clock (news_list : list News)
    (article_lengths : option (gmap string Z)) :
  let lengths := default ∅ article_lengths in
  let rated := rate_all clock lengths news_list in
  let ranked_news := rank_news_list clock news_list article_lengths in
  Permutation ranked_news rated
  /\ List.map (fun n => set_rating n 0%float) rated
     = List.map (fun n => set_rating n 0%float) news_list
  /\ (forall i n, news_list !! i = Some n ->
        rated !! i
        = Some (set_rating n (calculate_rating (clock i) n (default 0 (lengths !! link n)))))
  /\ StronglySorted (fun a b => PrimFloat.leb (rating b) (rating a) = true) ranked_news
  /\ (forall x, In x rated ->
        List.filter (fun n => PrimFloat.eqb (rating n) (rating x)) ranked_news
        = List.filter (fun n => PrimFloat.eqb (rating n) (rating x)) rated).
Proof.
  intros lengths rated ranked_news.
  pose proof (rate_all_ranked lengths news_list clock) as Hr. fold rated in Hr.
  assert (Permutation ranked_news rated) as Hperm
    by apply sorted_reverse_Permutation.
  assert (Forall (ranked rating (fun n => centi (rating n))) ranked_news) as Hr'
    by (rewrite Hperm; exact Hr).
  split; [exact Hperm |].
  split; [apply rate_all_entries |].
  split.
  { intros i n Hi. unfold rated, rate_all. rewrite list_lookup_imap, Hi. reflexivity. }
  split.
  - apply (sorted_rank_key News rating _ ranked_news Hr').
    apply (sorted_reverse_sorted News rating _ rated Hr).
  - intros x Hx.
    assert (ranked rating (fun n => centi (rating n)) x) as [Hkx Ex]
      by (rewrite List.Forall_forall in Hr; apply Hr, Hx).
    pose proof (sorted_reverse_filter News rating _ (centi (rating x)) rated Hr) as Hf.
    change (sorted_reverse rating rated) with ranked_news in Hf.
    rewrite List.Forall_forall in Hr, Hr'.
    transitivity (List.filter (fun n => centi (rating n) =? centi (rating x)) ranked_news).
    + apply List.filter_ext_in. intros n Hn. destruct (Hr' n Hn) as [Hkn En].
      rewrite En at 1. rewrite Ex at 1. apply hundredth_eqb; assumption.
    + rewrite Hf. apply List.filter_ext_in. intros n Hn. destruct (Hr n Hn) as [Hkn En].
      rewrite En at 2. rewrite Ex at 2. symmetry. apply hundredth_eqb; assumption.
Qed.

End RankNewsList.

(** ** The ranking engine on concrete entries

    The Unicode database is the table for ASCII and the Russian alphabet;
    the texts below are in ASCII. *)

Section RankingExamples.
Import Datetime Models Settings Sources Unicode PyFloat RankingEngine Notions.

(** A fresh Hacker News entry with three keyword matches ("ai", "coding"
    twice) and an unknown length: 0.3 + 0.225 + 0.15 + 0.1, times 10. *)
Example calculate_rating_hacker_news :
  keyword_count (ucd := basic_unicode) "New AI Coding Tool" "A tool for coding" = 3%nat
  /\ calculate_rating (ucd := basic_unicode) noon
       (article_at "Hacker News" (datetime_now (wall_at 739000 11 30))) 0 = 7.75%float.
Proof. split; vm_compute; reflexivity. Qed.

Lemma calculate_rating_spec_witness :
  let n := article_at "Hacker News" (datetime_now (wall_at 739000 11 30)) in
  let n' := set_rating n 3.5%float in
  let r := calculate_rating (ucd := basic_unicode) noon n 0 in
  calculate_rating (ucd := basic_unicode) noon n' 0 = r
  /\ PrimFloat.leb 0 r = true /\ PrimFloat.leb r 10 = true.
Proof.
  intros n n' r.
  pose proof (calculate_rating_spec (ucd := basic_unicode) noon n n' 0
                eq_refl eq_refl eq_refl eq_refl) as H.
  destruct H as (H1 & _ & _ & _ & _ & _ & H7 & H8).
  split; [exact H1 | split; [exact H7 | exact H8]].
Defined.

(** C5, as stated, fails: of two timestamps with different offsets the more
    recent instant can be the earlier wall-clock reading.  At noon, the
    entry published at 10:00 UTC+0 is more recent than the one published at
    11:30 UTC+5, and its freshness component is 0.9 against 1.0. *)
Lemma freshness_more_recent_scores_lower :
  ~ (forall clock (n1 n2 : News),
        datetime_gt (published_at n1) (published_at n2) = Ok true ->
        PrimFloat.leb (_calculate_freshness_score clock (published_at n2))
                      (_calculate_freshness_score clock (published_at n1)) = true).
Proof.
  intros H.
  specialize (H noon (article_at "Habr" published_utc) (article_at "Habr" published_plus5)).
  assert (datetime_gt (published_at (article_at "Habr" published_utc))
                      (published_at (article_at "Habr" published_plus5)) = Ok true) as Hgt
    by (vm_compute; reflexivity).
  specialize (H Hgt). vm_compute in H. discriminate H.
Qed.

Example freshness_at_noon :
  _calculate_freshness_score noon published_utc = 0.9%float
  /\ _calculate_freshness_score noon published_plus5 = 1.0%float.
Proof. split; vm_compute; reflexivity. Qed.

Lemma freshness_monotone_wall_clock_witness :
  PrimFloat.leb
    (_calculate_freshness_score noon (published_at (article_at "Habr" published_utc)))
    (_calculate_freshness_score noon (published_at (article_at "Habr" published_plus5)))
  = true.
Proof.
  refine (proj1 (freshness_monotone_wall_clock noon
                   (article_at "Habr" published_plus5) (article_at "Habr" published_utc)) _).
  vm_compute. reflexivity.
Defined.

End RankingExamples.

(** ** The keyword component and whole words *)

Section KeywordFacts.
Import Settings Unicode PyFloat RankingEngine Notions.
Context {ucd : UnicodeData}.

(** For a term that starts and ends with a word character, [\b term \b]
    matches exactly at its whole-word occurrences. *)
Lemma matches_here_word_ended lit prev text :
  word_ended lit = true -> matches_here lit prev text = whole_word_here lit prev text.
Proof.
  destruct lit as [| c lit]; [discriminate |].
  intros H. apply andb_true_iff in H as [Hc Hl].
  unfold matches_here, whole_word_here.
  destruct text as [| d text]; [simpl; rewrite !andb_false_r; reflexivity |].
  simpl match_literal. destruct (Z.eqb_spec c d) as [<- | _];
    [| rewrite !andb_false_r; reflexivity].
  destruct (match_literal lit text) as [rest |]; [| rewrite !andb_false_r; reflexivity].
  unfold boundary, last_char. cbn [List.head word_at]. rewrite Hc, Hl.
  destruct (word_at prev), (word_at (List.head rest)); reflexivity.
Qed.

Lemma findall_count_word_ended lit :
  word_ended lit = true ->
  forall text skip prev,
    findall_count lit skip prev text = whole_word_count lit skip prev text.
Proof.
  intros H. induction text as [| c text IH]; intros skip prev.
  - destruct skip; simpl; [| reflexivity].
    rewrite (matches_here_word_ended _ _ _ H). reflexivity.
  - destruct skip; simpl; [| apply IH].
    rewrite (matches_here_word_ended _ _ _ H).
    destruct (whole_word_here lit prev (c :: text)); rewrite IH; reflexivity.
Qed.

(** The keyword component is 0 when the loop counts no match. *)
Lemma keyword_score_no_match title description :
  keyword_count title description = O ->
  _calculate_keyword_score title description = 0%float.
Proof. unfold _calculate_keyword_score. intros ->. reflexivity. Qed.

End KeywordFacts.

Section KeywordExamples.
Import Settings Unicode PyFloat RankingEngine Notions.

(** The terms of the vocabulary that do not end with a word character. *)
Example vocabulary_not_word_ended :
  List.filter (fun keyword =>
                 negb (word_ended (ucd := basic_unicode)
                         (uni_lower (UnicodeData := basic_unicode) (code_points keyword))))
              RELEVANCE_KEYWORDS
  = ["c++"; "c#"].
Proof. vm_compute. reflexivity. Qed.

(** C6 on the text "learn c++ today": the vocabulary term "c++" stands there
    as a whole word, so the component the specification describes is
    min(1.0, 1 / 5.0) = 0.2; the pattern [\bc\+\+\b] asks for a word
    boundary after the last "+", there is none before a space, and the code
    counts no match and scores 0.0.  With five such words the specification
    gives 1.0 and the code 0.0. *)
Theorem keyword_score_misses_whole_word :
  (whole_word_matches (ucd := basic_unicode) "learn c++ today" "" = 1%nat
   /\ claimed_keyword_score (ucd := basic_unicode) "learn c++ today" "" = 0.2%float
   /\ keyword_count (ucd := basic_unicode) "learn c++ today" "" = 0%nat
   /\ _calculate_keyword_score (ucd := basic_unicode) "learn c++ today" "" = 0%float)
  /\ (whole_word_matches (ucd := basic_unicode) "c++ c# c++ c# c++" "" = 5%nat
      /\ claimed_keyword_score (ucd := basic_unicode) "c++ c# c++ c# c++" "" = 1.0%float
      /\ keyword_count (ucd := basic_unicode) "c++ c# c++ c# c++" "" = 0%nat
      /\ _calculate_keyword_score (ucd := basic_unicode) "c++ c# c++ c# c++" "" = 0%float).
Proof. repeat split; vm_compute; reflexivity. Qed.

(** Where the code does count: "coding" twice and "ai" once, and a term
    followed by a word character ("c++11"). *)
Example keyword_count_examples :
  keyword_count (ucd := basic_unicode) "New AI Coding Tool" "A tool for coding" = 3%nat
  /\ keyword_count (ucd := basic_unicode) "c++11 released" "" = 1%nat
  /\ whole_word_matches (ucd := basic_unicode) "c++11 released" "" = 0%nat.
Proof. repeat split; vm_compute; reflexivity. Qed.

End KeywordExamples.

(** ** Fetching and parsing the feeds *)

Section FetchFacts.
Import Settings Sources RSSParser Notions.

Ltac case_attempt get url a :=
  let status := fresh "status" in
  let text := fresh "text" in
  let E := fresh "E" in
  destruct (get url a) as [status text | |] eqn:E;
  [destruct (Z.eqb_spec status 200) |..].

Lemma fetch_attempts_configured get url attempts :
  Forall (event_configured url) (snd (fetch_attempts get url attempts)).
Proof.
  induction attempts as [| attempt rest IH]; simpl; [constructor |].
  destruct (fetch_attempts get url rest) as [content trace]. simpl in IH.
  assert (Forall (event_configured url)
            ((if (attempt <? MAX_RETRIES - 1)%nat then [EvSleep RETRY_DELAY] else [])
               ++ trace)) as Hrest.
  { apply Forall_app. split; [| exact IH].
    destruct (attempt <? MAX_RETRIES - 1)%nat; repeat constructor. }
  assert (event_configured url (EvGet url REQUEST_TIMEOUT)) as Hget by (split; reflexivity).
  case_attempt get url attempt; simpl; repeat (constructor; try assumption).
Qed.

(** When every attempt fails, the loop runs to its end and the method
    returns the empty string. *)
Lemma fetch_attempts_all_failed get url attempts :
  Forall (fun a => attempt_failed (get url a) = true) attempts ->
  fst (fetch_attempts get url attempts) = ""
  /\ count_gets (snd (fetch_attempts get url attempts)) = List.length attempts.
Proof.
  unfold count_gets. induction 1 as [| a rest Ha Hrest IH]; simpl; [auto |].
  destruct (fetch_attempts get url rest) as [content trace]. simpl in IH.
  destruct IH as [-> IH].
  revert Ha. case_attempt get url a; simpl; intros Ha; subst; try discriminate;
    destruct (a <? 2)%nat; simpl; rewrite IH; auto.
Qed.

(** The first attempt answered with status 200 ends the loop: the method
    returns the text of that response. *)
Lemma fetch_attempts_success get url pre attempt text post :
  Forall (fun a => attempt_failed (get url a) = true) pre ->
  get url attempt = HttpResponse 200 text ->
  fst (fetch_attempts get url (pre ++ attempt :: post)) = text
  /\ count_gets (snd (fetch_attempts get url (pre ++ attempt :: post)))
     = S (List.length pre).
Proof.
  unfold count_gets. intros Hpre Hok. induction Hpre as [| a pre Ha Hpre IH]; simpl.
  - rewrite Hok. simpl. auto.
  - destruct (fetch_attempts get url (pre ++ attempt :: post)) as [content trace].
    simpl in IH. destruct IH as [-> IH].
    revert Ha. case_attempt get url a; simpl; intros Ha; subst; try discriminate;
      destruct (a <? 2)%nat; simpl; rewrite IH; auto.
Qed.

(** Between one and [MAX_RETRIES] requests, and a pause between two
    consecutive requests (none after the last). *)
Lemma fetch_feed_counts get url :
  let trace := snd (fetch_feed get url) in
  (1 <= count_gets trace <= MAX_RETRIES)%nat
  /\ count_sleeps trace = (count_gets trace - 1)%nat.
Proof.
  unfold fetch_feed, count_gets, count_sleeps, MAX_RETRIES. simpl seq. simpl fetch_attempts.
  case_attempt get url 0%nat; case_attempt get url 1%nat; case_attempt get url 2%nat;
    simpl; lia.
Qed.

Lemma attempts_split a :
  (a < MAX_RETRIES)%nat ->
  seq 0 MAX_RETRIES = (seq 0 a ++ a :: seq (S a) (MAX_RETRIES - S a))%list.
Proof.
  unfold MAX_RETRIES. intros Ha.
  destruct a as [| [| [| a]]]; [reflexivity | reflexivity | reflexivity | lia].
Qed.

Lemma fetch_feed_all_failed get url :
  (forall a, (a < MAX_RETRIES)%nat -> attempt_failed (get url a) = true) ->
  fst (fetch_feed get url) = "" /\ count_gets (snd (fetch_feed get url)) = MAX_RETRIES.
Proof.
  intros Hall.
  destruct (fetch_attempts_all_failed get url (seq 0 MAX_RETRIES)) as [Hc Hn].
  - apply List.Forall_forall. intros a Ha. apply in_seq in Ha. apply Hall. lia.
  - rewrite length_seq in Hn. auto.
Qed.

Lemma fetch_feed_success get url a text :
  (a < MAX_RETRIES)%nat ->
  (forall b, (b < a)%nat -> attempt_failed (get url b) = true) ->
  get url a = HttpResponse 200 text ->
  fst (fetch_feed get url) = text /\ count_gets (snd (fetch_feed get url)) = S a.
Proof.
  intros Ha Hpre Hok. unfold fetch_feed. rewrite (attempts_split a Ha).
  destruct (fetch_attempts_success get url (seq 0 a) a text
              (seq (S a) (MAX_RETRIES - S a))) as [Hc Hn]; [| exact Hok |].
  - apply List.Forall_forall. intros b Hb. apply in_seq in Hb. apply Hpre. lia.
  - rewrite length_seq in Hn. auto.
Qed.

(** C7 (amended). [fetch_feed] gives every request the configured timeout,
    makes between one and [MAX_RETRIES] requests with the fixed delay between
    two consecutive ones, and goes on to the next attempt after a timeout,
    another error, or any status other than 200.  The first response with
    status 200 ends it with the text of that response.  When all the
    attempts have failed it returns the empty string, whatever the failures
    were. *)
Theorem fetch_feed_retries get url :
  let content := fst (fetch_feed get url) in
  let trace := snd (fetch_feed get url) in
  Forall (event_configured url) trace
  /\ (1 <= count_gets trace <= MAX_RETRIES)%nat
  /\ count_sleeps trace = (count_gets trace - 1)%nat
  /\ ((forall a, (a < MAX_RETRIES)%nat -> attempt_failed (get url a) = true) ->
      content = "" /\ count_gets trace = MAX_RETRIES)
  /\ (forall a text,
         (a < MAX_RETRIES)%nat ->
         (forall b, (b < a)%nat -> attempt_failed (get url b) = true) ->
         get url a = HttpResponse 200 text ->
         content = text /\ count_gets trace = S a).
Proof.
  intros content trace. unfold content, trace.
  split; [apply fetch_attempts_configured |].
  split; [apply fetch_feed_counts |].
  split; [apply fetch_feed_counts |].
  split; [apply fetch_feed_all_failed | apply fetch_feed_success].
Qed.

(** C7, as stated, fails: after three timeouts, three responses with status
    500, or three network errors, [fetch_feed] returns the same value, the
    empty string, so no failure kind can be read off its result. *)
Lemma fetch_feed_error_kind_lost :
  ~ (exists kind_of : string -> FetchErrorKind,
        kind_of (fst (fetch_feed (always HttpTimeout) "https://dev.to/feed")) = KindTimeout
        /\ kind_of (fst (fetch_feed (always (HttpResponse 500 "Server Error")) "https://dev.to/feed"))
           = KindHTTPStatus
        /\ kind_of (fst (fetch_feed (always HttpError) "https://dev.to/feed")) = KindNetwork).
Proof. intros (kind_of & H1 & H2 & _). simpl in H1, H2. congruence. Qed.

(** The results also coincide with a response of status 200 and an empty body. *)
Example fetch_feed_failures_alike :
  fst (fetch_feed (always HttpTimeout) "https://dev.to/feed") = ""
  /\ fst (fetch_feed (always (HttpResponse 500 "Server Error")) "https://dev.to/feed") = ""
  /\ fst (fetch_feed (always HttpError) "https://dev.to/feed") = ""
  /\ fst (fetch_feed (always (HttpResponse 200 "")) "https://dev.to/feed") = ""
  /\ snd (fetch_feed (always HttpTimeout) "https://dev.to/feed")
     = [EvGet "https://dev.to/feed" 30; EvLogTimeout 0; EvSleep 2;
        EvGet "https://dev.to/feed" 30; EvLogTimeout 1; EvSleep 2;
        EvGet "https://dev.to/feed" 30; EvLogTimeout 2].
Proof. repeat split; reflexivity. Qed.

End FetchFacts.

Section ParseAllSources.
Import Datetime Models Settings Sources RSSParser Notions.
Variable feedparser_parse : string -> result (list FeedEntry).
Variable strip_html_tags : string -> string.
Variable date_parser_parse : string -> result datetime.
Variable net : nat -> string -> nat -> http_outcome.
Variable clock : nat -> nat -> Z.

Lemma extend_results_from (results : list (result (list News))) :
  forall acc : list News,
    fold_left (fun (all_news : list News) r =>
                 match r with
                 | Ok l => (all_news ++ l)%list
                 | Raise _ => all_news
                 end) results acc
    = (acc ++ concat (List.map entries_of results))%list.
Proof.
  induction results as [| r results IH]; intros acc; simpl.
  - rewrite app_nil_r. reflexivity.
  - rewrite IH. destruct r; simpl; [rewrite app_assoc |]; reflexivity.
Qed.

Lemma extend_results_concat results :
  extend_results results = concat (List.map entries_of results).
Proof. unfold extend_results. rewrite extend_results_from. reflexivity. Qed.


End ParseAllSources.


(** Three sources, the second of which times out at every attempt: the
    entries of the first and of the third, and no exception. *)
Example parse_all_sources_one_timeout :
  match RSSParser.parse_all_sources Notions.one_entry_feed (fun s => s)
          (fun _ => Raise ValueError) Notions.flaky_network (fun _ _ => Notions.noon)
          Notions.three_sources with
  | Ok all_news =>
      List.map (fun n => (Models.title n, Models.source n)) all_news
      = [("first feed", "A"); ("third feed", "C")]
  | Raise _ => False
  end.
Proof. vm_compute. reflexivity. Qed.

(** ** The scheduler *)

Section SchedulerFacts.
Import Datetime Settings NewsScheduler Notions.

Lemma digit_of_range c x : digit_of c = Some x -> 0 <= x <= 9.
Proof.
  unfold digit_of. destruct (_ && _) eqn:E; [| discriminate].
  apply andb_true_iff in E as [E1 E2]. intros [= <-]. lia.
Qed.

Lemma parse_digits_range l x : parse_digits l = Some x -> 0 <= x <= 99.
Proof.
  destruct l as [| a [| b [| c l]]]; simpl; try discriminate.
  - intros H. apply digit_of_range in H. lia.
  - unfold two_digits. destruct (digit_of a) eqn:Ea, (digit_of b) eqn:Eb; try discriminate.
    apply digit_of_range in Ea, Eb. intros [= <-]. lia.
Qed.

(** A parsed time of day lies within the day. *)
Lemma strptime_HM_range s t : strptime_HM s = Ok t -> 0 <= t < us_per_day.
Proof.
  unfold strptime_HM. destruct (split_colon _) as [[hours minutes] |]; [| discriminate].
  destruct (parse_digits hours) as [h |] eqn:Eh; [| discriminate].
  destruct (parse_digits minutes) as [m |] eqn:Em; [| discriminate].
  apply parse_digits_range in Eh, Em.
  destruct (_ && _) eqn:E; [| discriminate]. apply andb_true_iff in E as [E1 E2].
  intros [= <-]. unfold timedelta_hours, us_per_day, us_per_second. lia.
Qed.

(** C8. In the daily mode the wait is the time until the next occurrence of
    the configured time of day: never negative, shorter than a day, and
    ending at that time of day; it ends today when the current time of day
    has not passed the configured one, tomorrow otherwise.  At 10:00 with
    the time set to 09:00 it is 23 hours. *)
Theorem daily_wait_next_occurrence send_time_str send_time clock :
  strptime_HM send_time_str = Ok send_time ->
  MINYEAR_WALL <= clock -> clock + us_per_day <= MAXYEAR_WALL ->
  let now := datetime_now clock in
  exists wait,
    daily_wait send_time_str clock = Ok wait
    /\ 0 <= wait < us_per_day
    /\ time_of (datetime_now (clock + wait)) = send_time
    /\ (time_of now <= send_time ->
        date_of (datetime_now (clock + wait)) = date_of now)
    /\ (send_time < time_of now ->
        date_of (datetime_now (clock + wait)) = date_of now + 1)
    /\ (send_time = timedelta_hours 9 -> time_of now = timedelta_hours 10 ->
        wait = timedelta_hours 23).
Proof.
  intros Hs Hmin Hmax now. subst now. pose proof (strptime_HM_range _ _ Hs) as Ht.
  unfold daily_wait. rewrite Hs. simpl bind.
  unfold date_of, time_of, combine, datetime_now, datetime_add, datetime_sub. cbn [dt_wall dt_tz].
  assert (0 < us_per_day) as HD by reflexivity.
  pose proof (Z.div_mod clock us_per_day ltac:(lia)) as Hdm.
  pose proof (Z.mod_pos_bound clock us_per_day HD) as Hmod.
  set (d := clock / us_per_day) in *. set (t := clock mod us_per_day) in *.
  destruct (Z.ltb_spec send_time t) as [Hpast | Hnot].
  - assert ((MINYEAR_WALL <=? d * us_per_day + send_time + timedelta_days 1)
            && (d * us_per_day + send_time + timedelta_days 1 <=? MAXYEAR_WALL) = true) as ->.
    { unfold timedelta_days. apply andb_true_iff. split; apply Z.leb_le; lia. }
    simpl bind. cbn [dt_wall dt_tz]. unfold timedelta_days.
    exists (d * us_per_day + send_time + 1 * us_per_day - clock).
    split; [reflexivity |]. split; [lia |].
    replace (clock + (d * us_per_day + send_time + 1 * us_per_day - clock))
      with (send_time + (d + 1) * us_per_day) by lia.
    rewrite Z.mod_add, Z.div_add by lia.
    rewrite Z.mod_small, Z.div_small by lia. repeat split; try lia.
    intros -> Hten. unfold timedelta_hours, us_per_day, us_per_second in *. lia.
  - simpl bind. cbn [dt_wall dt_tz].
    exists (d * us_per_day + send_time - clock).
    split; [reflexivity |]. split; [lia |].
    replace (clock + (d * us_per_day + send_time - clock))
      with (send_time + d * us_per_day) by lia.
    rewrite Z.mod_add, Z.div_add by lia.
    rewrite Z.mod_small, Z.div_small by lia. repeat split; try lia.
    intros -> Hten. unfold timedelta_hours, us_per_day, us_per_second in *. lia.
Qed.

(** At 10:00 with the configured "09:00": the next day, 23 hours later,
    82800.0 seconds. *)
Lemma daily_wait_at_ten :
  daily_wait DAILY_SEND_TIME (wall_at 739000 10 0) = Ok (timedelta_hours 23)
  /\ wait_seconds (wall_at 739000 10 0) = Ok 82800%float
  /\ date_of (datetime_now (wall_at 739000 10 0 + timedelta_hours 23)) = 739001.
Proof.
  destruct (daily_wait_next_occurrence DAILY_SEND_TIME (timedelta_hours 9)
              (wall_at 739000 10 0))
    as (wait & Hw & _ & _ & _ & Htomorrow & Hten).
  - reflexivity.
  - vm_compute. discriminate.
  - vm_compute. discriminate.
  - rewrite (Hten eq_refl eq_refl) in Hw, Htomorrow.
    split; [exact Hw |]. split; [reflexivity |].
    rewrite Htomorrow; reflexivity.
Defined.

Lemma _send_scheduled_digest_returns body : _send_scheduled_digest body = Ok tt.
Proof. destruct body; reflexivity. Qed.

(** Without a call to [stop], a step keeps the scheduler in its loop. *)
Lemma step_in_loop interval s i : i <> StopCalled -> in_loop s -> in_loop (step interval s i).
Proof.
  unfold in_loop. intros Hi [Hrun Hplace]. destruct s as [place running].
  simpl in Hrun, Hplace. subst running.
  destruct i as [[u | e] | |]; destruct place; simpl; try congruence; auto.
Qed.

Lemma run_in_loop interval inputs :
  forall s, ~ In StopCalled inputs -> in_loop s -> in_loop (run interval s inputs).
Proof.
  unfold run. induction inputs as [| i inputs IH]; intros s Hstop Hs; [exact Hs |].
  simpl. apply IH.
  - intros Hin. apply Hstop. right. exact Hin.
  - apply step_in_loop; [| exact Hs]. intros ->. apply Hstop. left. reflexivity.
Qed.

(** The loop is left only with the running flag cleared. *)
Lemma step_exit_flag interval s i :
  (at_place s = LoopExited -> is_running s = false) ->
  at_place (step interval s i) = LoopExited -> is_running (step interval s i) = false.
Proof.
  destruct s as [place running]. simpl. intros Hs.
  destruct i as [[u | e] | |], place, running; simpl; try discriminate; auto.
Qed.

Lemma run_exit_flag interval inputs :
  forall s, (at_place s = LoopExited -> is_running s = false) ->
            at_place (run interval s inputs) = LoopExited ->
            is_running (run interval s inputs) = false.
Proof.
  unfold run. induction inputs as [| i inputs IH]; intros s Hs; [exact Hs |].
  simpl. apply IH. apply step_exit_flag. exact Hs.
Qed.

Lemma interval_seconds_values interval :
  (SCHEDULE_INTERVALS !! interval = None /\ interval_seconds interval = 3600)
  \/ (In interval ["hourly"; "3hours"; "6hours"; "daily"]
      /\ In (interval_seconds interval) [3600; 10800; 21600; 86400]).
Proof.
  unfold interval_seconds, SCHEDULE_INTERVALS.
  destruct (decide (interval = "daily")) as [-> | H1]; [right; vm_compute; tauto |].
  destruct (decide (interval = "6hours")) as [-> | H2]; [right; vm_compute; tauto |].
  destruct (decide (interval = "3hours")) as [-> | H3]; [right; vm_compute; tauto |].
  destruct (decide (interval = "hourly")) as [-> | H4]; [right; vm_compute; tauto |].
  left. rewrite !lookup_insert_ne by congruence. rewrite lookup_empty. auto.
Qed.

(** Along a run whose cycles are calls of [_send_scheduled_digest] every
    sleep lasts the interval. *)
Lemma sleeps_digest interval inputs :
  forall s, Forall digest_cycle inputs ->
            Forall (fun d => d = interval_seconds interval) (sleeps interval s inputs).
Proof.
  induction inputs as [| i inputs IH]; intros s Hd; [constructor |].
  inversion Hd as [| ? ? Hi Hrest]; subst. simpl.
  destruct i as [r | |]; [| apply IH; exact Hrest | apply IH; exact Hrest].
  destruct Hi as [body ->]. rewrite _send_scheduled_digest_returns.
  destruct s as [[| d |] running]; simpl; try (apply IH; exact Hrest).
  constructor; [reflexivity | apply IH; exact Hrest].
Qed.

(** C4 (amended). In the interval mode an error raised inside a cycle is
    caught and logged by the cycle itself: [_send_scheduled_digest] returns
    normally whatever its body does, and the loop then sleeps the configured
    interval, as after a cycle without error; along a run whose cycles are
    calls of [_send_scheduled_digest] every sleep lasts the interval.  The
    sleep of 60 seconds is started exactly when an exception escapes the
    awaited cycle, and at the end of a sleep the next cycle starts.  No
    outcome of a cycle ends the loop: as long as [stop] is not called the
    scheduler stays in its loop, whatever the cycles return or raise, and
    the loop is left only after [stop] has cleared the running flag. *)
Theorem interval_loop_survives_errors interval :
  (forall s body, at_place s = InCycle ->
     step interval s (CycleDone (_send_scheduled_digest body))
     = mkScheduler (Sleeping (interval_seconds interval)) (is_running s))
  /\ (forall inputs, Forall digest_cycle inputs ->
        Forall (fun d => d = interval_seconds interval)
               (sleeps interval start_interval inputs))
  /\ (forall s r, at_place s = InCycle ->
        (at_place (step interval s (CycleDone r)) = Sleeping 60 <-> exists e, r = Raise e))
  /\ (forall s seconds, at_place s = Sleeping seconds -> is_running s = true ->
        step interval s SleepOver = mkScheduler InCycle true)
  /\ (forall inputs, ~ In StopCalled inputs ->
        in_loop (run interval start_interval inputs))
  /\ (forall inputs, at_place (run interval start_interval inputs) = LoopExited ->
        In StopCalled inputs /\ is_running (run interval start_interval inputs) = false).
Proof.
  split; [intros [place running] body; simpl; intros ->;
          rewrite _send_scheduled_digest_returns; reflexivity |].
  split; [intros inputs; apply sleeps_digest |].
  split.
  { intros [place running] r. simpl. intros ->. destruct r as [u | e]; simpl; split.
    - intros H. injection H as H.
      destruct (interval_seconds_values interval) as [[_ E] | [_ E]]; [lia |].
      simpl in E. lia.
    - intros [e H]. discriminate H.
    - intros _. exists e. reflexivity.
    - intros _. reflexivity. }
  split; [intros [place running] seconds; simpl; intros -> ->; reflexivity |].
  split; [intros inputs Hstop; apply run_in_loop;
          [exact Hstop | split; [reflexivity | discriminate]] |].
  intros inputs Hexit. split.
  - destruct (in_dec (fun a b : input => ltac:(repeat decide equality) : {a = b} + {a <> b})
                StopCalled inputs) as [Hin | Hnot]; [exact Hin |].
    destruct (run_in_loop interval inputs start_interval Hnot) as [_ Hplace];
      [split; [reflexivity | discriminate] | contradiction].
  - apply run_exit_flag; [discriminate | exact Hexit].
Qed.

(** C4, as stated, fails: a cycle whose pipeline raises is followed by the
    sleep of the interval, 3600 seconds in the hourly mode, and not by a
    sleep of 60 seconds. *)
Lemma failed_cycle_sleeps_interval :
  let inputs := [CycleDone (_send_scheduled_digest (Raise OperationalError)); SleepOver;
                 CycleDone (_send_scheduled_digest (Raise TimeoutError)); SleepOver] in
  sleeps "hourly" start_interval inputs = [3600; 3600]
  /\ ~ In 60 (sleeps "hourly" start_interval inputs)
  /\ in_loop (run "hourly" start_interval inputs).
Proof.
  split; [vm_compute; reflexivity |]. split.
  - vm_compute. intros [H | [H | []]]; discriminate H.
  - split; [reflexivity | discriminate].
Qed.

(** A cycle that raises, a cycle that returns, then a call to [stop] during
    the third cycle: the sleeps last 60 s, the interval, the interval, and
    the loop is left at the next test of the running flag. *)
Example interval_loop_run :
  let inputs := [CycleDone (Raise RuntimeError); SleepOver;
                 CycleDone (_send_scheduled_digest (Raise OperationalError)); SleepOver;
                 StopCalled; CycleDone (Ok tt); SleepOver] in
  sleeps "hourly" start_interval inputs = [60; 3600; 3600]
  /\ run "hourly" start_interval inputs = mkScheduler LoopExited false.
Proof. split; vm_compute; reflexivity. Qed.

End SchedulerFacts.

(** * Further properties of the code *)

(** ** The store: [add_news], [check_news_exists], [clear_all_news] and the
    loop that saves a list of entries *)

Section StoreFacts.
Import Datetime Models DatabaseManager Pipeline Notions StoreNotions.

Lemma add_news_cases db n :
  (known db n /\ add_news db n = (Ok None, db))
  \/ (exists parsed, parsed_at n = Some parsed /\ fresh_in db n
      /\ add_news db n
         = (Ok (Some (news_seq db + 1)),
            mkDatabase
              (news_table db ++
                 [mkRow (news_seq db + 1) (title n) (link n) (description n) (source n)
                        (published_at n) parsed (language n) (rating n) (content_hash n)])
              (news_seq db + 1))).
Proof.
  unfold known, fresh_in, add_news, insert_news.
  destruct (parsed_at n) as [parsed |]; [| left; auto].
  destruct (existsb _ _); [left; auto | right; eauto].
Qed.

Lemma fresh_in_rows db n :
  fresh_in db n ->
  Forall (fun r => row_title r <> title n /\ row_link r <> link n
                   /\ forall h, content_hash n = Some h -> row_content_hash r <> Some h)
         (news_table db).
Proof.
  unfold fresh_in. intros H. apply List.Forall_forall. intros r Hr.
  assert (clashes (title n) (link n) (content_hash n) r = false) as Hc.
  { destruct (clashes _ _ _ r) eqn:E; [| reflexivity].
    rewrite <- H. symmetry. apply existsb_exists. eauto. }
  unfold clashes in Hc. apply orb_false_iff in Hc as [Hc Hh].
  apply orb_false_iff in Hc as [Ht Hl].
  apply String.eqb_neq in Ht, Hl. repeat split; try assumption.
  intros h Hn Hrow. rewrite Hn, Hrow, String.eqb_refl in Hh. discriminate.
Qed.

Lemma omap_snoc {A B} (f : A -> option B) (l : list A) (x : A) :
  omap f (l ++ [x])%list
  = (omap f l ++ match f x with Some y => [y] | None => [] end)%list.
Proof.
  rewrite omap_app. f_equal.
Qed.

Lemma NoDup_snoc {A} (l : list A) (x : A) : NoDup l -> ~ In x l -> NoDup (l ++ [x])%list.
Proof.
  intros Hl Hx. apply NoDup_app. split; [exact Hl |]. split.
  - intros y Hy Hin. apply list_elem_of_singleton in Hin. subst y.
    apply Hx. apply list_elem_of_In. exact Hy.
  - apply NoDup_singleton.
Qed.

Lemma StronglySorted_snoc (l : list Z) x :
  StronglySorted Z.lt l -> Forall (fun i => i < x) l -> StronglySorted Z.lt (l ++ [x])%list.
Proof.
  induction 1 as [| a l Hl IH Ha]; intros Hx; simpl.
  - repeat constructor.
  - inversion Hx as [| ? ? Hax Hlx]; subst. constructor; [apply IH; exact Hlx |].
    apply Forall_app. split; [exact Ha | repeat constructor; exact Hax].
Qed.

Lemma consistent_add_news db n : consistent db -> consistent (snd (add_news db n)).
Proof.
  intros [Ht Hl Hh Hi Hs H0].
  destruct (add_news_cases db n) as [[_ ->] | (parsed & Hp & Hfresh & ->)];
    [constructor; assumption |].
  pose proof (fresh_in_rows db n Hfresh) as Hrows.
  unfold titles, links, fingerprints, ids in *.
  constructor; unfold titles, links, fingerprints, ids; simpl.
  - rewrite List.map_app. apply NoDup_snoc; [exact Ht |]. simpl.
    intros Hin. apply in_map_iff in Hin as (r & Hr & Hin).
    apply (proj1 (List.Forall_forall _ _) Hrows) in Hin. tauto.
  - rewrite List.map_app. apply NoDup_snoc; [exact Hl |]. simpl.
    intros Hin. apply in_map_iff in Hin as (r & Hr & Hin).
    apply (proj1 (List.Forall_forall _ _) Hrows) in Hin. tauto.
  - rewrite omap_snoc. simpl. destruct (content_hash n) as [h |] eqn:Hn.
    + apply NoDup_snoc; [exact Hh |]. intros Hin.
      apply list_elem_of_In, list_elem_of_omap in Hin as (r & Hin & Hr).
      apply list_elem_of_In in Hin.
      apply (proj1 (List.Forall_forall _ _) Hrows) in Hin.
      destruct Hin as (_ & _ & Hin). apply (Hin h eq_refl Hr).
    + rewrite app_nil_r. exact Hh.
  - rewrite List.map_app. apply StronglySorted_snoc; [exact Hi |].
    eapply List.Forall_impl; [| exact Hs]. simpl. intros; lia.
  - rewrite List.map_app. apply Forall_app. split.
    + eapply List.Forall_impl; [| exact Hs]. simpl. intros; lia.
    + repeat constructor; simpl; lia.
  - lia.
Qed.

Lemma consistent_clear_all_news db : consistent db -> consistent (snd (clear_all_news db)).
Proof.
  intros [_ _ _ _ _ H0]. constructor; simpl; try constructor. exact H0.
Qed.

Lemma consistent_empty : consistent empty_database.
Proof. constructor; simpl; try constructor. lia. Qed.

(** X1. Whatever calls of [add_news] and [clear_all_news] are made on a new
    database, the table never holds two rows with the same title, the same
    link or the same fingerprint, and the ids of its rows are positive,
    increasing in insertion order and never above the AUTOINCREMENT counter. *)
Theorem store_stays_consistent (calls : list call) :
  consistent (after_calls empty_database calls).
Proof.
  unfold after_calls. generalize consistent_empty. generalize empty_database.
  induction calls as [| c calls IH]; intros db Hdb; simpl; [exact Hdb |].
  apply IH. destruct c; [apply consistent_add_news | apply consistent_clear_all_news]; exact Hdb.
Qed.

Lemma check_news_exists_app db rows seq h :
  check_news_exists (mkDatabase (news_table db ++ rows) seq) h
  = check_news_exists db h
    || existsb (fun r => match row_content_hash r with
                         | Some h' => String.eqb h' h
                         | None => false
                         end) rows.
Proof. unfold check_news_exists. simpl. apply existsb_app. Qed.

Lemma check_news_exists_clashes db n h :
  content_hash n = Some h -> check_news_exists db h = true ->
  existsb (clashes (title n) (link n) (content_hash n)) (news_table db) = true.
Proof.
  unfold check_news_exists. intros Hn H.
  apply existsb_exists in H as (r & Hr & H). apply existsb_exists. exists r.
  split; [exact Hr |]. unfold clashes. rewrite Hn.
  destruct (row_content_hash r); [| discriminate]. rewrite H. apply orb_true_r.
Qed.

(** X2. [check_news_exists] and [add_news] agree on fingerprints.  An entry
    whose fingerprint [check_news_exists] finds is never inserted: [add_news]
    returns [None] and leaves the store as it was.  When [add_news] inserts
    an entry, its fingerprint was not in the store before, is found
    afterwards, and the answer for every other fingerprint is unchanged. *)
Theorem check_news_exists_add_news db n h :
  content_hash n = Some h ->
  (check_news_exists db h = true -> add_news db n = (Ok None, db))
  /\ (forall id db', add_news db n = (Ok (Some id), db') ->
        check_news_exists db h = false
        /\ check_news_exists db' h = true
        /\ forall h', h' <> h -> check_news_exists db' h' = check_news_exists db h').
Proof.
  intros Hn. split.
  - intros H. apply add_news_clash. apply (check_news_exists_clashes db n h Hn H).
  - intros id db' Hadd.
    destruct (add_news_cases db n) as [[_ Hk] | (parsed & Hp & Hfresh & Hok)];
      [rewrite Hk in Hadd; discriminate |].
    rewrite Hok in Hadd. injection Hadd as <- <-. split; [| split].
    + destruct (check_news_exists db h) eqn:E; [| reflexivity].
      unfold fresh_in in Hfresh.
      rewrite (check_news_exists_clashes db n h Hn E) in Hfresh. discriminate.
    + rewrite check_news_exists_app. simpl. rewrite Hn, String.eqb_refl.
      apply orb_true_iff. right. reflexivity.
    + intros h' Hne. rewrite check_news_exists_app. simpl. rewrite Hn.
      destruct (String.eqb_spec h h'); [congruence |]. rewrite !orb_false_r. reflexivity.
Qed.

Lemma check_news_exists_add_news_witness :
  check_news_exists (snd (add_news empty_database article_ab_c))
    (SHA256.hexdigest "abctext") = true.
Proof.
  destruct (check_news_exists_add_news empty_database article_ab_c
              (SHA256.hexdigest "abctext")) as [_ H].
  - vm_compute. reflexivity.
  - destruct (H 1 (snd (add_news empty_database article_ab_c))) as (_ & Hin & _).
    + vm_compute. reflexivity.
    + exact Hin.
Defined.

(** X3. [clear_all_news] returns the number of rows and leaves none: no
    fingerprint is found any more and any entry with a parsing time can be
    inserted again.  The AUTOINCREMENT counter is kept, so in a consistent
    store the id given to the next entry is above every id given before. *)
Theorem clear_all_news_restarts db n :
  parsed_at n <> None ->
  let count := fst (clear_all_news db) in
  let db' := snd (clear_all_news db) in
  count = Z.of_nat (List.length (news_table db))
  /\ news_table db' = []
  /\ (forall h, check_news_exists db' h = false)
  /\ (exists db'', add_news db' n = (Ok (Some (news_seq db + 1)), db''))
  /\ (consistent db -> Forall (fun i => i < news_seq db + 1) (ids db)).
Proof.
  intros Hp count db'. unfold count, db', clear_all_news. simpl.
  split; [reflexivity |]. split; [reflexivity |]. split; [reflexivity |]. split.
  - destruct (parsed_at n) as [parsed |] eqn:E; [| congruence].
    pose proof (add_news_fresh (mkDatabase [] (news_seq db)) n parsed E eq_refl) as H.
    simpl in H. eexists. exact H.
  - intros [_ _ _ _ Hs _]. eapply List.Forall_impl; [| exact Hs]. simpl. intros; lia.
Qed.

Lemma clear_all_news_restarts_witness :
  exists db'',
    add_news (snd (clear_all_news (snd (add_news empty_database article_ab_c)))) article_ab_c
    = (Ok (Some 2), db'').
Proof.
  destruct (clear_all_news_restarts (snd (add_news empty_database article_ab_c)) article_ab_c)
    as (_ & _ & _ & H & _).
  - vm_compute. discriminate.
  - exact H.
Defined.

Lemma known_add_news db n : known db n -> add_news db n = (Ok None, db).
Proof.
  intros [Hp | Hc]; [| apply add_news_clash; exact Hc].
  unfold add_news, insert_news. rewrite Hp. reflexivity.
Qed.

(** A duplicate stays one when the table grows. *)
Lemma known_grows db n rows seq :
  known db n -> known (mkDatabase (news_table db ++ rows) seq) n.
Proof.
  intros [Hp | Hc]; [left; exact Hp | right]. simpl. rewrite existsb_app, Hc. reflexivity.
Qed.

Lemma known_after_add_news db m n : known db n -> known (snd (add_news db m)) n.
Proof.
  intros Hn. destruct (add_news_cases db m) as [[_ ->] | (parsed & _ & _ & ->)];
    [exact Hn | apply known_grows; exact Hn].
Qed.

(** Once passed to [add_news], an entry is a duplicate for the store. *)
Lemma known_once_added db n : known (snd (add_news db n)) n.
Proof.
  destruct (add_news_cases db n) as [[Hn ->] | (parsed & _ & _ & ->)]; [exact Hn |].
  right. simpl. rewrite existsb_app. simpl.
  rewrite (clashes_own_row n _ parsed n (or_introl eq_refl)). rewrite orb_true_r. reflexivity.
Qed.

Lemma save_all_known db news_list saved_count :
  Forall (known db) news_list -> save_all db news_list saved_count = (Ok saved_count, db).
Proof.
  induction 1 as [| n l Hn Hl IH]; simpl; [reflexivity |].
  rewrite (known_add_news db n Hn). simpl. exact IH.
Qed.

Lemma save_all_spec news_list :
  forall db saved_count,
    0 <= news_seq db ->
    exists saved db',
      save_all db news_list saved_count = (Ok (saved_count + saved), db')
      /\ 0 <= saved <= Z.of_nat (List.length news_list)
      /\ Z.of_nat (List.length (news_table db'))
         = Z.of_nat (List.length (news_table db)) + saved
      /\ 0 <= news_seq db'
      /\ (forall n, known db n -> known db' n)
      /\ Forall (known db') news_list.
Proof.
  induction news_list as [| n l IH]; intros db saved_count H0.
  - exists 0, db. simpl. rewrite Z.add_0_r. repeat split; auto; lia.
  - pose proof (known_once_added db n) as Hown.
    pose proof (fun m => known_after_add_news db n m) as Hmono.
    simpl save_all.
    destruct (add_news_cases db n) as [[_ Hk] | (parsed & _ & _ & Hok)].
    + rewrite Hk in *. simpl in Hown, Hmono. simpl truthy. cbv iota.
      destruct (IH db saved_count H0) as (saved & db' & Hs & Hr & Hlen & H0' & Hk' & Hall).
      exists saved, db'. rewrite Hs. split; [reflexivity |].
      split; [simpl List.length; lia |]. split; [exact Hlen |]. split; [exact H0' |].
      split; [exact Hk' |]. constructor; [apply Hk'; exact Hown | exact Hall].
    + rewrite Hok in *. simpl in Hown, Hmono.
      set (db1 := mkDatabase _ _) in *.
      assert (truthy (Some (news_seq db + 1)) = true) as ->.
      { simpl. destruct (Z.eqb_spec (news_seq db + 1) 0); [lia | reflexivity]. }
      destruct (IH db1 (saved_count + 1)) as (saved & db' & Hs & Hr & Hlen & H0' & Hk' & Hall).
      { simpl. lia. }
      exists (1 + saved), db'. rewrite Hs.
      replace (saved_count + (1 + saved)) with (saved_count + 1 + saved) by lia.
      split; [reflexivity |]. split; [simpl List.length; lia |].
      split; [rewrite Hlen; unfold db1; simpl; rewrite length_app; simpl; lia |].
      split; [exact H0' |].
      split; [intros m Hm; apply Hk', Hmono; exact Hm |].
      constructor; [apply Hk'; exact Hown | exact Hall].
Qed.

(** X4. The loop that saves a list of entries never raises.  Its count of
    saved entries is the number of rows the table has gained, at most the
    length of the list.  Afterwards every entry of the list is a duplicate
    for the store, so running the loop again on the same list saves nothing
    and leaves the store as it is. *)
Theorem save_all_idempotent db news_list :
  0 <= news_seq db ->
  exists saved db',
    save_all db news_list 0 = (Ok saved, db')
    /\ 0 <= saved <= Z.of_nat (List.length news_list)
    /\ Z.of_nat (List.length (news_table db'))
       = Z.of_nat (List.length (news_table db)) + saved
    /\ (forall n, In n news_list -> add_news db' n = (Ok None, db'))
    /\ save_all db' news_list 0 = (Ok 0, db').
Proof.
  intros H0.
  destruct (save_all_spec news_list db 0 H0) as (saved & db' & Hs & Hr & Hlen & _ & _ & Hall).
  exists saved, db'. repeat split; try assumption; try lia.
  - intros n Hn. apply known_add_news. apply (proj1 (List.Forall_forall _ _) Hall n Hn).
  - apply save_all_known. exact Hall.
Qed.

Lemma save_all_idempotent_witness :
  exists saved db',
    save_all empty_database [article_ab_c; article_a_bc; article_ab_c] 0 = (Ok saved, db')
    /\ save_all db' [article_ab_c; article_a_bc; article_ab_c] 0 = (Ok 0, db').
Proof.
  destruct (save_all_idempotent empty_database [article_ab_c; article_a_bc; article_ab_c])
    as (saved & db' & Hs & _ & _ & _ & Hagain).
  - simpl. lia.
  - exists saved, db'. split; [exact Hs | exact Hagain].
Defined.

End StoreFacts.

(** ** Ranking: the digest, the components of the rating, the keywords *)

Section SortedFacts.
Import PyFloat RankingEngine Notions.
Variable A : Type.
Variable key : A -> float.
Variable rank : A -> Z.

(** In a sorted list every element of a prefix is related to every element
    of the rest. *)
Lemma StronglySorted_app_cross (R : A -> A -> Prop) (l1 l2 : list A) :
  StronglySorted R (l1 ++ l2)%list ->
  forall a b, In a l1 -> In b l2 -> R a b.
Proof.
  induction l1 as [| x l1 IH]; simpl; intros Hs a b Ha Hb; [destruct Ha |].
  inversion Hs as [| ? ? Hs' Hx]; subst. destruct Ha as [<- | Ha].
  - apply (proj1 (List.Forall_forall _ _) Hx). apply in_or_app. right. exact Hb.
  - apply (IH Hs' a b Ha Hb).
Qed.

(** Sorting a list that is in descending order already leaves it as it is. *)
Lemma sorted_reverse_fixpoint l :
  Forall (ranked key rank) l ->
  StronglySorted (fun a b => rank b <= rank a) l ->
  sorted_reverse key l = l.
Proof.
  intros Hr Hs. induction Hs as [| x l Hs IH Hx]; [reflexivity |].
  inversion Hr as [| ? ? Hrx Hrl]; subst. simpl. rewrite (IH Hrl).
  destruct l as [| y l]; [reflexivity |]. simpl.
  inversion Hrl as [| ? ? Hry _]; subst.
  rewrite (ranked_ltb A key rank x y Hrx Hry).
  inversion Hx as [| ? ? Hxy _]; subst.
  destruct (Z.ltb_spec (rank x) (rank y)); [lia | reflexivity].
Qed.

End SortedFacts.

Section RankingMore.
Import Datetime Models Settings Sources Unicode PyFloat RankingEngine Pipeline Notions.
Context {ucd : UnicodeData}.

(** X5. The entries kept for a digest are the best ones: whatever the number
    [k] of entries taken from the head of the ranked list (TOP_NEWS_COUNT for
    the channel digest), no entry left out has a higher rating than an entry
    taken, and the digest holds [k] entries or the whole list when it is
    shorter. *)
Theorem top_news_best clock (news_list : list News) (article_lengths : option (gmap string Z)) :
  let ranked_news := rank_news_list clock news_list article_lengths in
  top_news ranked_news = firstn TOP_NEWS_COUNT ranked_news
  /\ forall k,
       List.length (firstn k ranked_news) = Nat.min k (List.length news_list)
       /\ forall a b, In a (firstn k ranked_news) -> In b (skipn k ranked_news) ->
                      PrimFloat.leb (rating b) (rating a) = true.
Proof.
  intros ranked_news. split; [reflexivity |]. intros k.
  pose proof (rate_all_ranked (default ∅ article_lengths) news_list clock) as Hr.
  assert (Permutation ranked_news (rate_all clock (default ∅ article_lengths) news_list))
    as Hperm by apply sorted_reverse_Permutation.
  split.
  - rewrite length_firstn. f_equal. rewrite (Permutation_length Hperm).
    unfold rate_all. apply length_imap.
  - assert (StronglySorted (fun a b => PrimFloat.leb (rating b) (rating a) = true) ranked_news)
      as Hs.
    { apply (sorted_rank_key News rating (fun n => centi (rating n))).
      - rewrite Hperm. exact Hr.
      - apply (sorted_reverse_sorted News rating _ _ Hr). }
    rewrite <- (firstn_skipn k ranked_news) in Hs.
    apply (StronglySorted_app_cross News _ _ _ Hs).
Qed.

Lemma rate_all_const c lengths (l : list News) :
  rate_all (fun _ => c) lengths l
  = List.map (fun n => set_rating n (calculate_rating c n (default 0 (lengths !! link n)))) l.
Proof. unfold rate_all. apply (imap_const _ l). Qed.

(** X6. With the clock held fixed, ranking is idempotent: ranking the result
    of [rank_news_list] again gives the same list, with the same ratings in
    the same order (the rating does not depend on the rating already stored
    in the entry, and the sort leaves a sorted list as it is). *)
Theorem rank_news_list_idempotent (c : Z) (news_list : list News)
    (article_lengths : option (gmap string Z)) :
  rank_news_list (fun _ => c)
    (rank_news_list (fun _ => c) news_list article_lengths) article_lengths
  = rank_news_list (fun _ => c) news_list article_lengths.
Proof.
  unfold rank_news_list. set (lengths := default ∅ article_lengths).
  set (rated := rate_all (fun _ => c) lengths news_list).
  pose proof (rate_all_ranked lengths news_list (fun _ => c)) as Hr. fold rated in Hr.
  assert (rate_all (fun _ => c) lengths (sorted_reverse rating rated)
          = sorted_reverse rating rated) as ->.
  { rewrite rate_all_const. rewrite <- (map_id (sorted_reverse rating rated)) at 2.
    apply map_ext_in. intros n Hn.
    apply (Permutation_in _ (sorted_reverse_Permutation News rating rated)) in Hn.
    unfold rated in Hn. rewrite rate_all_const in Hn.
    apply in_map_iff in Hn as (n0 & <- & _). reflexivity. }
  apply (sorted_reverse_fixpoint News rating (fun n => centi (rating n))).
  - apply sorted_reverse_ranked. exact Hr.
  - apply (sorted_reverse_sorted News rating _ _ Hr).
Qed.

(** The six ranges of [_calculate_length_score]. *)
Lemma length_score_cases (a : Z) :
  (a = 0 /\ _calculate_length_score a = 0.5%float)
  \/ (500 <= a <= 2000 /\ _calculate_length_score a = 1.0%float)
  \/ ((300 <= a < 500 \/ 2000 < a <= 3000) /\ _calculate_length_score a = 0.8%float)
  \/ (100 <= a < 300 /\ _calculate_length_score a = 0.5%float)
  \/ ((a < 0 \/ 0 < a < 100 \/ 3000 < a) /\ _calculate_length_score a = 0.3%float).
Proof.
  unfold _calculate_length_score.
  destruct (Z.eqb_spec a 0) as [-> | H0]; [left; split; reflexivity |].
  destruct (Z.leb_spec 500 a), (Z.leb_spec a 2000); simpl;
    [right; left; split; [lia | reflexivity] | |  |].
  all: destruct (Z.leb_spec 300 a), (Z.ltb_spec a 500); simpl;
    try (right; right; left; split; [lia | reflexivity]).
  all: destruct (Z.ltb_spec 2000 a), (Z.leb_spec a 3000); simpl;
    try (right; right; left; split; [lia | reflexivity]).
  all: destruct (Z.leb_spec 100 a), (Z.ltb_spec a 300); simpl;
    try (right; right; right; left; split; [lia | reflexivity]).
  all: try (right; right; right; right; split; [lia | reflexivity]).
Qed.

Ltac length_cases a :=
  destruct (length_score_cases a) as [[? ->] | [[? ->] | [[? ->] | [[? ->] | [? ->]]]]].

(** X7. The length component rises and then falls: among known lengths (at
    least one word) it does not decrease up to 2000 words and does not
    increase from 500 words on; it is 1.0 exactly from 500 to 2000 words;
    an unknown length (0) gets 0.5, and a negative one 0.3. *)
Theorem length_score_shape (a b : Z) :
  (1 <= a -> a <= b -> b <= 2000 ->
   PrimFloat.leb (_calculate_length_score a) (_calculate_length_score b) = true)
  /\ (500 <= a -> a <= b ->
      PrimFloat.leb (_calculate_length_score b) (_calculate_length_score a) = true)
  /\ (_calculate_length_score a = 1.0%float <-> 500 <= a <= 2000)
  /\ _calculate_length_score 0 = 0.5%float
  /\ (a < 0 -> _calculate_length_score a = 0.3%float).
Proof.
  split; [| split; [| split; [| split]]].
  - intros H1 Hab Hb. length_cases a; length_cases b; try lia; reflexivity.
  - intros Ha Hab. length_cases a; length_cases b; try lia; reflexivity.
  - split.
    + length_cases a; intros E; try lia;
        apply (f_equal (fun x => PrimFloat.leb 1 x)) in E; vm_compute in E; discriminate E.
    + intros Ha. length_cases a; try lia; reflexivity.
  - reflexivity.
  - intros Ha. length_cases a; try lia; reflexivity.
Qed.

Lemma source_weights_unknown name :
  ~ In name (List.map src_name RSS_SOURCES) -> source_weights !! name = None.
Proof.
  intros Hn. unfold source_weights, RSS_SOURCES. simpl fold_left.
  simpl in Hn.
  repeat (rewrite lookup_insert_ne; [| intros E; apply Hn; rewrite E; tauto]).
  apply lookup_empty.
Qed.

(** X8. The source component is the configured weight of the source divided
    by 10; for a source name that is not configured it is 0.5 (the weight
    5.0 taken for a missing key).  Whatever the name it lies between 0.5 and
    0.9. *)
Theorem source_score_default (name : string) :
  (forall s, In s RSS_SOURCES ->
             _calculate_source_score (src_name s) = (src_weight s / 10.0)%float)
  /\ (~ In name (List.map src_name RSS_SOURCES) ->
      _calculate_source_score name = 0.5%float)
  /\ PrimFloat.leb 0.5 (_calculate_source_score name) = true
  /\ PrimFloat.leb (_calculate_source_score name) 0.9 = true.
Proof.
  assert (forall s, In s RSS_SOURCES ->
                    _calculate_source_score (src_name s) = (src_weight s / 10.0)%float) as Hin.
  { intros s Hs. unfold RSS_SOURCES in Hs. simpl in Hs.
    repeat (destruct Hs as [<- | Hs]; [vm_compute; reflexivity |]). destruct Hs. }
  assert (~ In name (List.map src_name RSS_SOURCES) ->
          _calculate_source_score name = 0.5%float) as Hout.
  { intros Hn. unfold _calculate_source_score. rewrite (source_weights_unknown name Hn).
    reflexivity. }
  split; [exact Hin |]. split; [exact Hout |].
  destruct (in_dec string_dec name (List.map src_name RSS_SOURCES)) as [Hy | Hn].
  - apply in_map_iff in Hy as (s & <- & Hs). rewrite (Hin s Hs).
    unfold RSS_SOURCES in Hs. simpl in Hs.
    repeat (destruct Hs as [<- | Hs]; [split; vm_compute; reflexivity |]). destruct Hs.
  - rewrite (Hout Hn). split; reflexivity.
Qed.

End RankingMore.

Section KeywordMore.
Import Settings Unicode PyFloat RankingEngine Notions.

(** On the characters of a term, the Unicode table at hand says what the
    table of ASCII and the Russian alphabet says. *)
Lemma word_ended_agrees {ucd : UnicodeData} (keyword : string) :
  agrees_on_keyword ucd keyword ->
  word_ended (uni_lower (code_points keyword))
  = word_ended (ucd := basic_unicode)
      (uni_lower (UnicodeData := basic_unicode) (code_points keyword)).
Proof.
  intros [-> Hchars].
  destruct (uni_lower (UnicodeData := basic_unicode) (code_points keyword))
    as [| c lit]; [reflexivity |].
  unfold word_ended, is_word.
  assert (In c (c :: lit)) as Hc by (left; reflexivity).
  assert (In (List.last (c :: lit) 0) (c :: lit)) as Hl.
  { destruct (exists_last (l := c :: lit) ltac:(discriminate)) as (l' & z & E).
    rewrite E, last_last. apply in_or_app. right. left. reflexivity. }
  rewrite (proj1 (List.Forall_forall _ _) Hchars _ Hc),
          (proj1 (List.Forall_forall _ _) Hchars _ Hl).
  reflexivity.
Qed.

(** X23. Whatever the Unicode table, as long as it says of the characters of
    the vocabulary what Python's does (no effect of [lower] beyond ASCII and
    the Russian alphabet, letters and digits alphanumeric, the space and the
    punctuation not): for every term of the vocabulary but "c++" and "c#",
    the loop of [_calculate_keyword_score] counts the whole-word occurrences
    of the term, the places of the lowercased text, whatever its characters,
    where the term stands with no word character right before it and none
    right after it, taken from left to right without overlap. *)
Theorem keyword_count_whole_words {ucd : UnicodeData} (keyword : string) :
  In keyword RELEVANCE_KEYWORDS -> keyword <> "c++" -> keyword <> "c#" ->
  agrees_on_keyword ucd keyword ->
  forall text,
    count_keyword keyword text
    = whole_word_count (uni_lower (code_points keyword)) O None text.
Proof.
  intros Hin H1 H2 Hagree text. unfold count_keyword.
  apply findall_count_word_ended. rewrite (word_ended_agrees keyword Hagree).
  destruct (word_ended (ucd := basic_unicode)
              (uni_lower (UnicodeData := basic_unicode) (code_points keyword))) eqn:E;
    [reflexivity |].
  assert (In keyword ["c++"; "c#"]) as Hbad.
  { rewrite <- vocabulary_not_word_ended. apply filter_In. split; [exact Hin |].
    rewrite E. reflexivity. }
  simpl in Hbad. destruct Hbad as [<- | [<- | []]]; congruence.
Qed.

Lemma keyword_count_whole_words_witness :
  count_keyword (ucd := ukrainian_unicode) "код"
    (uni_lower (UnicodeData := ukrainian_unicode) (code_points "Код, кодів і код"))
  = 2%nat.
Proof.
  rewrite (keyword_count_whole_words (ucd := ukrainian_unicode) "код").
  - vm_compute. reflexivity.
  - vm_compute. tauto.
  - discriminate.
  - discriminate.
  - split; vm_compute; [reflexivity | repeat constructor].
Defined.

End KeywordMore.

(** ** The scheduler: the sleeps of the interval loop and the daily loop *)

Section ScheduleMore.
Import Datetime Settings NewsScheduler DailySchedule Notions ScheduleNotions.

Lemma sleeps_values interval inputs :
  forall s,
    Forall (fun d => d = 60 \/ d = interval_seconds interval) (sleeps interval s inputs).
Proof.
  induction inputs as [| i inputs IH]; intros s; simpl; [constructor |].
  destruct i as [[u | e] | |], s as [[| d |] running]; simpl; try apply IH;
    constructor; auto.
Qed.

(** X9. In the interval mode every sleep that follows a cycle lasts either
    the 60 seconds of the error branch or the interval, and the interval is
    3600 seconds for a name that [SCHEDULE_INTERVALS] does not hold and one
    of its four values otherwise: the loop never starts two cycles less than
    60 seconds of sleep apart. *)
Theorem interval_sleeps_bounded interval s inputs :
  Forall (fun d => (d = 60 \/ d = interval_seconds interval) /\ 60 <= d)
         (sleeps interval s inputs)
  /\ (SCHEDULE_INTERVALS !! interval = None -> interval_seconds interval = 3600)
  /\ 3600 <= interval_seconds interval <= 86400.
Proof.
  assert (3600 <= interval_seconds interval <= 86400) as Hrange.
  { destruct (interval_seconds_values interval) as [[_ ->] | [_ H]]; [lia |].
    simpl in H. lia. }
  split; [| split; [| exact Hrange]].
  - eapply List.Forall_impl; [| apply sleeps_values]. simpl. intros d Hd.
    split; [exact Hd | lia].
  - intros H. unfold interval_seconds. rewrite H. reflexivity.
Qed.

Lemma daily_wait_value send_time_str send_time clock :
  strptime_HM send_time_str = Ok send_time ->
  MINYEAR_WALL <= clock -> clock + us_per_day <= MAXYEAR_WALL ->
  daily_wait send_time_str clock
  = Ok ((send_time - time_of (datetime_now clock)) mod us_per_day).
Proof.
  intros Hs Hmin Hmax. pose proof (strptime_HM_range _ _ Hs) as Ht.
  unfold daily_wait. rewrite Hs. simpl bind.
  unfold date_of, time_of, combine, datetime_now, datetime_add, datetime_sub.
  cbn [dt_wall dt_tz].
  assert (0 < us_per_day) as HD by reflexivity.
  pose proof (Z.div_mod clock us_per_day ltac:(lia)) as Hdm.
  pose proof (Z.mod_pos_bound clock us_per_day HD) as Hmod.
  set (d := clock / us_per_day) in *. set (t := clock mod us_per_day) in *.
  destruct (Z.ltb_spec send_time t) as [Hpast | Hnot].
  - assert ((MINYEAR_WALL <=? d * us_per_day + send_time + timedelta_days 1)
            && (d * us_per_day + send_time + timedelta_days 1 <=? MAXYEAR_WALL) = true) as ->.
    { unfold timedelta_days. apply andb_true_iff. split; apply Z.leb_le; lia. }
    simpl bind. cbn [dt_wall dt_tz]. unfold timedelta_days. f_equal.
    apply (Z.mod_unique _ _ (-1)); lia.
  - simpl bind. f_equal. rewrite Z.mod_small by lia. lia.
Qed.

(** X10. In the daily mode the wait is the configured time of day minus the
    current one, modulo 24 hours.  When the loop comes back to its head
    after the wake-up and less than 24 hours after it, the next wake-up is
    set exactly 24 hours after the previous one: the digests start one day
    apart, however long a cycle took. *)
Theorem daily_wait_one_day_apart send_time_str send_time clock clock' :
  strptime_HM send_time_str = Ok send_time ->
  MINYEAR_WALL <= clock -> clock <= clock' -> clock' + us_per_day <= MAXYEAR_WALL ->
  exists wait,
    daily_wait send_time_str clock = Ok wait
    /\ wait = (send_time - time_of (datetime_now clock)) mod us_per_day
    /\ (clock + wait < clock' -> clock' < clock + wait + us_per_day ->
        daily_wait send_time_str clock' = Ok (clock + wait + us_per_day - clock')).
Proof.
  intros Hs Hmin Hle Hmax. pose proof (strptime_HM_range _ _ Hs) as Ht.
  assert (0 < us_per_day) as HD by reflexivity.
  exists ((send_time - time_of (datetime_now clock)) mod us_per_day).
  split; [apply daily_wait_value; try assumption; lia |]. split; [reflexivity |].
  intros Hafter Hbefore. rewrite (daily_wait_value _ _ _ Hs) by lia. f_equal.
  unfold time_of, datetime_now in *. cbn [dt_wall] in *.
  rewrite Zminus_mod_idemp_r.
  pose proof (Z.div_mod clock us_per_day ltac:(lia)) as Hdm.
  pose proof (Z.div_mod (send_time - clock mod us_per_day) us_per_day ltac:(lia)) as Hwm.
  pose proof (Z.mod_pos_bound (send_time - clock mod us_per_day) us_per_day HD) as Hw.
  set (w := (send_time - clock mod us_per_day) mod us_per_day) in *.
  set (q := (send_time - clock mod us_per_day) / us_per_day) in *.
  set (t := clock mod us_per_day) in *. set (d := clock / us_per_day) in *.
  symmetry. apply (Z.mod_unique _ _ (- (d - q) - 1)); lia.
Qed.

Lemma daily_wait_one_day_apart_witness :
  daily_wait DAILY_SEND_TIME (wall_at 739000 9 2) = Ok (timedelta_hours 24 - 120 * us_per_second).
Proof.
  destruct (daily_wait_one_day_apart DAILY_SEND_TIME (timedelta_hours 9)
              (wall_at 739000 8 0) (wall_at 739000 9 2))
    as (wait & Hw & -> & Hnext).
  - reflexivity.
  - vm_compute. discriminate.
  - vm_compute. discriminate.
  - vm_compute. discriminate.
  - rewrite Hnext; [reflexivity | reflexivity | reflexivity].
Defined.







End ScheduleMore.

(** ** The parser: what a feed entry becomes *)

Section ParserMore.
Import Datetime Models Settings Sources DatabaseManager RankingEngine RSSParser.
Import Notions StoreNotions ParserNotions.
Variable feedparser_parse : string -> result (list FeedEntry).
Variable strip_html_tags : string -> string.
Variable date_parser_parse : string -> result datetime.
Variable net : nat -> string -> nat -> http_outcome.
Variable clock : nat -> nat -> Z.

Lemma first_date_undated now fields :
  (forall s, In (Some s) fields -> s = "" \/ exists e, date_parser_parse s = Raise e) ->
  first_date date_parser_parse now fields = datetime_now now.
Proof.
  induction fields as [| field fields IH]; intros H; [reflexivity |].
  assert (first_date date_parser_parse now fields = datetime_now now) as Hrest
    by (apply IH; intros s Hs; apply H; right; exact Hs).
  simpl. destruct field as [s |]; [| exact Hrest].
  destruct (H s (or_introl eq_refl)) as [-> | [e He]]; [exact Hrest |].
  destruct (String.eqb s ""); [exact Hrest |]. rewrite He. exact Hrest.
Qed.

Lemma News_init_built now source entry published_at :
  built_from strip_html_tags now source entry
    (News_init now (strip_html_tags (default "Без заголовка" (entry_title entry)))
               (default "" (entry_link entry))
               (strip_html_tags
                  (default (default "" (entry_description entry)) (entry_summary entry)))
               (src_name source) published_at
               (src_language source) 0.0%float None None None).
Proof. constructor; reflexivity. Qed.

(** When no field gives a date [_parse_date] reads the clock, once. *)
Lemma gives_date_undated fields :
  (forall s, In (Some s) fields -> s = "" \/ exists e, date_parser_parse s = Raise e) ->
  existsb (gives_date date_parser_parse) fields = false.
Proof.
  induction fields as [| field fields IH]; intros H; [reflexivity |].
  simpl. rewrite IH by (intros s Hs; apply H; right; exact Hs).
  rewrite orb_false_r. destruct field as [s |]; [| reflexivity]. simpl.
  destruct (H s (or_introl eq_refl)) as [-> | [e He]]; [reflexivity |].
  destruct (String.eqb s ""); [reflexivity |]. rewrite He. reflexivity.
Qed.

(** When a field gives a date the clock plays no part. *)
Lemma first_date_dated now now' fields :
  existsb (gives_date date_parser_parse) fields = true ->
  first_date date_parser_parse now fields = first_date date_parser_parse now' fields.
Proof.
  induction fields as [| field fields IH]; [discriminate |].
  simpl. destruct field as [s |]; simpl; [| exact IH].
  destruct (String.eqb s ""); [exact IH |].
  destruct (date_parser_parse s); [reflexivity | exact IH].
Qed.

Lemma parse_date_reading ticks entry k :
  (_parse_date_readings date_parser_parse entry <= k)%nat ->
  _parse_date date_parser_parse
    (ticks (k - _parse_date_readings date_parser_parse entry)%nat) entry
  = _parse_date date_parser_parse (ticks (Nat.pred k)) entry.
Proof.
  unfold _parse_date_readings, _parse_date.
  destruct (existsb _ _) eqn:E; intros Hk.
  - apply first_date_dated. exact E.
  - replace (k - 1)%nat with (Nat.pred k) by lia. reflexivity.
Qed.

Lemma StronglySorted_lt_shift c ks :
  StronglySorted lt ks -> StronglySorted lt (List.map (Nat.add c) ks).
Proof.
  induction 1 as [| k ks Hs IH Hk]; simpl; constructor; [exact IH |].
  apply List.Forall_map. revert Hk. apply List.Forall_impl. intros a Ha. lia.
Qed.

Lemma Forall3_shift {A C} (P Q : A -> nat -> C -> Prop) (c : nat) l ks l' :
  Forall3 P l ks l' -> (forall x k z, P x k z -> Q x (c + k)%nat z) ->
  Forall3 Q l (List.map (Nat.add c) ks) l'.
Proof.
  intros H HPQ. induction H as [| x k z l ks l' HP _ IH]; simpl.
  - constructor.
  - constructor; [apply HPQ; exact HP | exact IH].
Qed.

(** The loop of [parse_feed_content] skips no entry, and every call of
    [datetime.now()] gets a reading of its own: the news of an entry holds
    the reading number [k] as its parsing time, with [k] growing along the
    list, and [_parse_date] used the reading before it when it needed one. *)
Lemma parse_entries_built source entries :
  forall ticks,
    exists ks,
      Forall3
        (fun entry k n =>
           built_from strip_html_tags (ticks k) source entry n
           /\ published_at n
              = _parse_date date_parser_parse
                  (ticks (k - _parse_date_readings date_parser_parse entry)%nat) entry
           /\ (_parse_date_readings date_parser_parse entry <= k)%nat)
        entries ks
        (parse_entries strip_html_tags date_parser_parse ticks source entries)
      /\ StronglySorted lt ks.
Proof.
  induction entries as [| entry entries IH]; intros ticks.
  - exists []. split; constructor.
  - set (made := _parse_date_readings date_parser_parse entry).
    destruct (IH (fun k => ticks (S made + k)%nat)) as (ks & Hbuilt & Hsorted).
    exists (made :: List.map (Nat.add (S made)) ks). split.
    + simpl. fold made. constructor.
      * split; [apply News_init_built |]. split; [| lia].
        rewrite Nat.sub_diag. reflexivity.
      * apply (Forall3_shift _ _ (S made) _ _ _ Hbuilt). intros e k n (B & P & R).
        split; [exact B |]. split; [| lia].
        rewrite P. do 2 f_equal. lia.
    + constructor; [apply StronglySorted_lt_shift; exact Hsorted |].
      apply List.Forall_map. apply List.Forall_forall. intros a _. lia.
Qed.

Lemma parse_feed_content_built ticks content source entries :
  feedparser_parse content = Ok entries ->
  exists news_list ks,
    parse_feed_content feedparser_parse strip_html_tags date_parser_parse
      ticks content source = Ok news_list
    /\ Forall3 (built_at strip_html_tags date_parser_parse ticks source)
               entries ks news_list
    /\ StronglySorted lt ks.
Proof.
  intros Hfeed. unfold parse_feed_content. rewrite Hfeed. simpl bind.
  destruct (parse_entries_built source entries ticks) as (ks & Hbuilt & Hsorted).
  eexists. exists ks. split; [reflexivity |]. split; [| exact Hsorted].
  apply (Forall3_impl _ _ _ _ _ Hbuilt). intros entry k n (B & P & R).
  constructor; [exact B | rewrite P; apply parse_date_reading; exact R |].
  intros Hu. unfold _parse_date_readings in R.
  rewrite (gives_date_undated _ Hu) in R. exact R.
Qed.


Lemma built_duplicate now now' source source' e1 e2 n1 n2 :
  built_from strip_html_tags now source e1 n1 ->
  built_from strip_html_tags now' source' e2 n2 ->
  entry_link e1 = entry_link e2 \/ entry_title e1 = entry_title e2 ->
  duplicate_of n1 n2.
Proof.
  intros B1 B2 [H | H]; unfold duplicate_of.
  - right. left. rewrite (built_link _ _ _ _ _ B1), (built_link _ _ _ _ _ B2), H.
    reflexivity.
  - left. rewrite (built_title _ _ _ _ _ B1), (built_title _ _ _ _ _ B2), H. reflexivity.
Qed.

(** X13. Two entries of a feed that both lack a link give news with the
    same link, the empty string (and two entries that both lack a title the
    same title, "Без заголовка"): whatever the store, once the news of one
    of them has been stored the news of the other is taken for a duplicate
    and is not stored. *)
Theorem entries_without_link_collide ticks content source entries i j e1 e2 :
  feedparser_parse content = Ok entries ->
  entries !! i = Some e1 -> entries !! j = Some e2 ->
  (entry_link e1 = None /\ entry_link e2 = None)
  \/ (entry_title e1 = None /\ entry_title e2 = None) ->
  exists news_list n1 n2,
    parse_feed_content feedparser_parse strip_html_tags date_parser_parse
      ticks content source = Ok news_list
    /\ news_list !! i = Some n1 /\ news_list !! j = Some n2
    /\ (entry_link e1 = None -> entry_link e2 = None -> link n1 = "" /\ link n2 = "")
    /\ forall db id db1,
         add_news db n1 = (Ok (Some id), db1) -> add_news db1 n2 = (Ok None, db1).
Proof.
  intros Hfeed Hi Hj Hmissing.
  destruct (parse_feed_content_built ticks content source entries Hfeed)
    as (news_list & ks & Hparse & Hbuilt & _).
  destruct (Forall3_lookup_l _ _ _ _ _ _ Hbuilt Hi) as (k1 & n1 & _ & Hn1 & A1).
  destruct (Forall3_lookup_l _ _ _ _ _ _ Hbuilt Hj) as (k2 & n2 & _ & Hn2 & A2).
  pose proof (built_fields _ _ _ _ _ _ _ A1) as B1.
  pose proof (built_fields _ _ _ _ _ _ _ A2) as B2.
  exists news_list, n1, n2. split; [exact Hparse |]. split; [exact Hn1 |].
  split; [exact Hn2 |]. split.
  - intros H1 H2. rewrite (built_link _ _ _ _ _ B1), (built_link _ _ _ _ _ B2), H1, H2.
    split; reflexivity.
  - intros db id db1 Hadd.
    assert (duplicate_of n1 n2) as Hdup.
    { apply (built_duplicate _ _ _ _ _ _ _ _ B1 B2).
      destruct Hmissing as [[-> ->] | [-> ->]]; auto. }
    destruct (add_news_cases db n1) as [[_ Hk] | (parsed & Hp & Hfresh & Hok)];
      [rewrite Hk in Hadd; discriminate |].
    rewrite Hok in Hadd. injection Hadd as <- <-.
    apply add_news_clash. simpl. rewrite existsb_app. simpl.
    rewrite (clashes_own_row n1 _ parsed n2 Hdup). rewrite orb_true_r. reflexivity.
Qed.

(** X14. [_parse_date] takes the first of [published], [updated] and
    [created] that is present, not empty and accepted by the date parser: a
    valid [published] wins whatever the other two hold.  When none gives a
    date the result is the current time, so such an entry gets the highest
    freshness component, 1.0, when it is rated less than an hour later. *)
Theorem undated_entry_is_fresh now rated_at entry :
  (forall s d, entry_published entry = Some s -> s <> "" -> date_parser_parse s = Ok d ->
               _parse_date date_parser_parse now entry = d)
  /\ (undated date_parser_parse entry ->
      _parse_date date_parser_parse now entry = datetime_now now
      /\ (rated_at - now < timedelta_hours 1 ->
          _calculate_freshness_score rated_at (_parse_date date_parser_parse now entry)
          = 1.0%float)).
Proof.
  split.
  - intros s d Hp Hs Hd. unfold _parse_date. simpl. rewrite Hp.
    destruct (String.eqb_spec s ""); [contradiction |]. rewrite Hd. reflexivity.
  - intros Hu. unfold _parse_date. rewrite (first_date_undated now _ Hu).
    split; [reflexivity |]. intros Hage.
    unfold _calculate_freshness_score, datetime_now. cbn [dt_tz dt_wall].
    destruct (Z.ltb_spec (rated_at - now) (timedelta_hours 1)); [reflexivity | lia].
Qed.

Lemma parse_all_sources_concat sources :
  parse_all_sources feedparser_parse strip_html_tags date_parser_parse net clock sources
  = Ok (concat (imap (fun task source =>
                        entries_of (_parse_source feedparser_parse strip_html_tags
                                      date_parser_parse net clock task source))
                     sources)).
Proof.
  unfold parse_all_sources, gather. simpl bind. f_equal.
  rewrite extend_results_concat. f_equal.
  change (List.map entries_of ?l) with (entries_of <$> l).
  rewrite fmap_imap. reflexivity.
Qed.

Lemma concat_nils {A B} (l : list B) : concat ((fun _ => @nil A) <$> l) = [].
Proof. induction l as [| x l IH]; [reflexivity | exact IH]. Qed.

(** X15. When every attempt fails for every source, and when there is no
    source at all, [parse_all_sources] returns the empty list and raises
    nothing. *)
Theorem parse_all_sources_all_failed sources :
  (forall task source a,
      sources !! task = Some source -> (a < MAX_RETRIES)%nat ->
      attempt_failed (net task (src_url source) a) = true) ->
  parse_all_sources feedparser_parse strip_html_tags date_parser_parse net clock sources
  = Ok [].
Proof.
  intros Hall. rewrite parse_all_sources_concat. f_equal.
  rewrite (imap_ext _ (const (fun _ => []))).
  - rewrite imap_const. apply concat_nils.
  - intros task source Hs. simpl. unfold _parse_source.
    destruct (fetch_feed_all_failed (net task) (src_url source)) as [-> _];
      [intros a Ha; apply (Hall task source a Hs Ha) | reflexivity].
Qed.

End ParserMore.

Lemma entries_without_link_collide_witness :
  exists news_list n1 n2,
    RSSParser.parse_feed_content ParserNotions.two_entries_no_link (fun s => s)
      (fun _ => Raise ValueError) (fun k => Z.of_nat k) "feed"
      (Sources.mkSource "A" "u" "en" 9.0%float "c")
    = Ok news_list
    /\ news_list !! 0%nat = Some n1 /\ news_list !! 1%nat = Some n2
    /\ Models.link n1 = "" /\ Models.link n2 = "".
Proof.
  destruct (entries_without_link_collide ParserNotions.two_entries_no_link (fun s => s)
              (fun _ => Raise ValueError) (fun k => Z.of_nat k) "feed"
              (Sources.mkSource "A" "u" "en" 9.0%float "c")
              [RSSParser.mkEntry (Some "first") None None None None None None;
               RSSParser.mkEntry (Some "second") None None None None None None]
              0%nat 1%nat
              (RSSParser.mkEntry (Some "first") None None None None None None)
              (RSSParser.mkEntry (Some "second") None None None None None None))
    as (news_list & n1 & n2 & Hp & H1 & H2 & Hl & _).
  - reflexivity.
  - reflexivity.
  - reflexivity.
  - left. split; reflexivity.
  - exists news_list, n1, n2. destruct (Hl eq_refl eq_refl) as [L1 L2]. auto.
Defined.

(** Two entries without a date, with the clock reading 0, 1, 2, ...: the
    first is published at reading 0 and parsed at reading 1, the second at
    readings 2 and 3. *)
Example parse_feed_content_readings :
  match RSSParser.parse_feed_content ParserNotions.two_entries_no_link (fun s => s)
          (fun _ => Raise ValueError) (fun k => Z.of_nat k) "feed"
          (Sources.mkSource "A" "u" "en" 9.0%float "c") with
  | Ok news_list =>
      List.map (fun n => (Datetime.dt_wall (Models.published_at n),
                          option_map Datetime.dt_wall (Models.parsed_at n))) news_list
      = [(0, Some 1); (2, Some 3)]
  | Raise _ => False
  end.
Proof. vm_compute. reflexivity. Qed.

Lemma parse_all_sources_all_failed_witness :
  RSSParser.parse_all_sources Notions.one_entry_feed (fun s => s) (fun _ => Raise ValueError)
    (fun _ => Notions.always RSSParser.HttpTimeout) (fun _ _ => 0) Notions.three_sources
  = Ok [].
Proof.
  apply parse_all_sources_all_failed. intros task source a _ _. reflexivity.
Defined.

(** ** Texts: whitespace, [escape_markdown], [truncate_by_sentences] *)

Section TextFacts.
Import PyStr PyFloat Formatter HTMLParser TextNotions.

(** *** Whitespace *)








(** *** [split] and [join] *)

Lemma split_starts c rest : isspace c = false -> split (c :: rest) <> [].
Proof.
  intros Hc. simpl. rewrite Hc. destruct rest as [| d rest]; [discriminate |].
  destruct (isspace d); [discriminate |]. destruct (split (d :: rest)); discriminate.
Qed.

Lemma split_words text : Forall word (split text).
Proof.
  induction text as [| c rest IH]; [constructor |].
  simpl. destruct (isspace c) eqn:Hc; [exact IH |].
  assert (word [c]) as Hw by (split; [discriminate | simpl; rewrite Hc; reflexivity]).
  destruct rest as [| d rest]; [repeat constructor; apply Hw |].
  destruct (isspace d) eqn:Hd; [constructor; [exact Hw | exact IH] |].
  destruct (split (d :: rest)) as [| w ws]; [repeat constructor; apply Hw |].
  inversion IH as [| ? ? [Hne Hall] Hws]; subst. constructor; [| exact Hws].
  split; [discriminate | simpl; rewrite Hc, Hall; reflexivity].
Qed.

Lemma split_word w : word w -> split w = [w].
Proof.
  intros [Hne Hall]. induction w as [| c rest IH]; [congruence |].
  simpl in Hall. apply andb_true_iff in Hall as [Hc Hall].
  apply negb_true_iff in Hc. simpl. rewrite Hc.
  destruct rest as [| d rest]; [reflexivity |].
  assert (isspace d = false) as Hd.
  { simpl in Hall. apply andb_true_iff in Hall as [Hd _]. apply negb_true_iff, Hd. }
  rewrite Hd. rewrite IH by (try discriminate; exact Hall). reflexivity.
Qed.

Lemma split_cons c rest :
  split (c :: rest)
  = if isspace c then split rest
    else match rest with
         | [] => [[c]]
         | d :: _ =>
             if isspace d then [c] :: split rest
             else match split rest with
                  | w :: ws => (c :: w) :: ws
                  | [] => [[c]]
                  end
         end.
Proof. reflexivity. Qed.

(** A whitespace character between two texts separates their words. *)
Lemma split_app_space a s b :
  isspace s = true -> split (a ++ s :: b) = (split a ++ split b)%list.
Proof.
  intros Hs. induction a as [| c a IH]; [simpl; rewrite Hs; reflexivity |].
  change ((c :: a) ++ s :: b)%list with (c :: (a ++ s :: b))%list.
  rewrite (split_cons c (a ++ s :: b)), (split_cons c a).
  destruct (isspace c) eqn:Hc; [exact IH |].
  destruct a as [| d a].
  - cbn [app] in *. rewrite Hs. rewrite IH. reflexivity.
  - change ((d :: a) ++ s :: b)%list with (d :: (a ++ s :: b))%list in *.
    lazy iota beta. destruct (isspace d) eqn:Hd.
    + rewrite IH. reflexivity.
    + rewrite IH. pose proof (split_starts d a Hd) as Hne.
      destruct (split (d :: a)) as [| w ws]; [congruence | reflexivity].
Qed.

Lemma split_join ws : Forall word ws -> split (join [ord " "] ws) = ws.
Proof.
  induction 1 as [| w ws Hw Hws IH]; [reflexivity |].
  destruct ws as [| w' ws]; [apply split_word, Hw |].
  change (join [ord " "] (w :: w' :: ws))
    with (w ++ ord " " :: join [ord " "] (w' :: ws))%list.
  rewrite split_app_space by reflexivity. rewrite IH, (split_word w Hw). reflexivity.
Qed.

Lemma split_all_spaces text : split text = [] <-> forallb isspace text = true.
Proof.
  induction text as [| c rest IH]; [simpl; tauto |].
  destruct (isspace c) eqn:Hc.
  - simpl. rewrite Hc. exact IH.
  - split; [intros H; exfalso; apply (split_starts c rest Hc H) |].
    simpl. rewrite Hc. discriminate.
Qed.

Lemma word_last w : word w -> exists pre c, w = (pre ++ [c])%list /\ isspace c = false.
Proof.
  intros [Hne Hall]. destruct (exists_last Hne) as (pre & c & ->).
  exists pre, c. split; [reflexivity |].
  rewrite forallb_app in Hall. apply andb_true_iff in Hall as [_ Hc].
  simpl in Hc. rewrite andb_true_r in Hc. apply negb_true_iff, Hc.
Qed.

Lemma join_last ws :
  Forall word ws -> ws <> [] ->
  exists pre c, join [ord " "] ws = (pre ++ [c])%list /\ isspace c = false.
Proof.
  induction 1 as [| w ws Hw Hws IH]; [congruence |]. intros _.
  destruct ws as [| w' ws]; [apply word_last, Hw |].
  destruct IH as (pre & c & E & Hc); [discriminate |].
  exists (w ++ [ord " "] ++ pre)%list, c. split; [| exact Hc].
  change (join [ord " "] (w :: w' :: ws))
    with (w ++ [ord " "] ++ join [ord " "] (w' :: ws))%list.
  rewrite E, <- !app_assoc. reflexivity.
Qed.

Lemma join_head ws :
  Forall word ws -> ws <> [] ->
  exists c rest, join [ord " "] ws = c :: rest /\ isspace c = false.
Proof.
  intros Hws Hne. destruct Hws as [| w ws [Hw Hall] Hws]; [congruence |].
  destruct w as [| c w]; [congruence |].
  simpl in Hall. apply andb_true_iff in Hall as [Hc _]. apply negb_true_iff in Hc.
  destruct ws; simpl; eauto.
Qed.

(** X16. [' '.join(text.split())] puts a text in a normal form: its words
    (the maximal runs of characters that are not whitespace, none of them
    empty) joined by single spaces.  The words of the result are the words
    of the text, so the operation is idempotent, and the result has no
    whitespace at either end. *)
Theorem join_split_normal_form (text : list Z) :
  Forall word (split text)
  /\ split (join_split text) = split text
  /\ join_split (join_split text) = join_split text
  /\ strip (join_split text) = join_split text.
Proof.
  pose proof (split_words text) as Hw.
  assert (split (join_split text) = split text) as Hs by apply split_join, Hw.
  split; [exact Hw |]. split; [exact Hs |]. split.
  - unfold join_split at 1. rewrite Hs. reflexivity.
  - unfold join_split. destruct (split text) as [| w ws] eqn:E; [reflexivity |].
    destruct (join_last (w :: ws) Hw) as (pre & c & Ej & Hc); [discriminate |].
    destruct (join_head (w :: ws) Hw) as (c' & rest & Ej' & Hc'); [discriminate |].
    unfold strip, rstrip. rewrite Ej, rev_app_distr. simpl. rewrite Hc.
    simpl. rewrite rev_involutive. rewrite <- Ej, Ej'. simpl. rewrite Hc'. reflexivity.
Qed.

(** X17. [calculate_article_length] counts the words of a text: it is 0
    exactly for a text that is empty or all whitespace, it adds up over two
    texts put together with a whitespace character between them, and it does
    not change when the whitespace of the text is normalised by
    [' '.join(text.split())]. *)
Theorem calculate_article_length_words (a b : list Z) (s : Z) :
  (calculate_article_length a = 0 <-> forallb isspace a = true)
  /\ (isspace s = true ->
      calculate_article_length (a ++ s :: b)
      = calculate_article_length a + calculate_article_length b)
  /\ calculate_article_length (join_split a) = calculate_article_length a
  /\ 0 <= calculate_article_length a <= Z.of_nat (List.length a).
Proof.
  unfold calculate_article_length. split; [| split; [| split]].
  - rewrite <- split_all_spaces. destruct (split a); simpl; split; try lia; congruence.
  - intros Hs. rewrite (split_app_space a s b Hs), length_app. lia.
  - unfold join_split. rewrite (split_join _ (split_words a)). reflexivity.
  - split; [lia |]. apply inj_le. clear. induction a as [| c rest IH]; [simpl; lia |].
    rewrite split_cons. destruct (isspace c); [simpl; lia |].
    destruct rest as [| d rest]; [simpl; lia |].
    destruct (isspace d); [simpl in *; lia |].
    destruct (split (d :: rest)); simpl in *; lia.
Qed.

(** *** [escape_markdown] *)

Lemma replace_char_flat_map (f : Z -> list Z) (old : Z) (new text : list Z) :
  flat_map f (replace_char old new text)
  = flat_map (fun c => if c =? old then flat_map f new else f c) text.
Proof.
  unfold replace_char. induction text as [| c rest IH]; [reflexivity |].
  simpl. rewrite flat_map_app, IH. destruct (c =? old); [reflexivity |].
  simpl. rewrite app_nil_r. reflexivity.
Qed.

(** The replacements one after the other come to one pass over the text,
    for any characters to escape that are distinct and hold no backslash. *)
Lemma escape_one_pass (chars : list Z) :
  NoDup chars -> ~ In (ord "\") chars ->
  forall text,
    fold_left (fun text char => replace_char char [ord "\"; char] text) chars text
    = flat_map (fun c => if existsb (Z.eqb c) chars then [ord "\"; c] else [c]) text.
Proof.
  induction 1 as [| a chars Ha Hnd IH]; intros Hb text.
  - simpl. induction text as [| c rest IHt]; [reflexivity |]. simpl. rewrite <- IHt.
    reflexivity.
  - simpl fold_left. rewrite IH by (intros H; apply Hb; right; exact H).
    rewrite replace_char_flat_map. apply flat_map_ext. intros c.
    simpl existsb. destruct (Z.eqb_spec c a) as [-> | Hne].
    + simpl. rewrite app_nil_r.
      assert (existsb (Z.eqb (ord "\")) chars = false) as ->.
      { destruct (existsb _ chars) eqn:E; [| reflexivity].
        apply existsb_exists in E as (x & Hx & E). apply Z.eqb_eq in E. subst x.
        exfalso. apply Hb. right. exact Hx. }
      assert (existsb (Z.eqb a) chars = false) as ->.
      { destruct (existsb _ chars) eqn:E; [| reflexivity].
        apply existsb_exists in E as (x & Hx & E). apply Z.eqb_eq in E. subst x.
        exfalso. apply Ha. apply list_elem_of_In. exact Hx. }
      reflexivity.
    + reflexivity.
Qed.

Lemma special_chars_distinct : NoDup special_chars /\ ~ In (ord "\") special_chars.
Proof.
  split.
  - unfold special_chars. simpl List.map.
    repeat (apply NoDup_cons_2; [intros H; apply list_elem_of_In in H; simpl in H;
                                 repeat (destruct H as [H | H]; [discriminate H |]);
                                 exact H |]).
    apply NoDup_nil_2.
  - simpl. intros H. repeat (destruct H as [H | H]; [discriminate H |]). exact H.
Qed.

Lemma escape_markdown_pass text : escape_markdown text = flat_map escape_char text.
Proof.
  unfold escape_markdown. destruct special_chars_distinct as [Hnd Hb].
  apply (escape_one_pass special_chars Hnd Hb).
Qed.

(** X18. [escape_markdown] comes to one pass over the text: each of the 18
    special characters gets one backslash in front of it and every other
    character, the backslash included, is left as it is; the replacements
    made one after the other do not touch each other's output.  The result
    is longer than the text by the number of its special characters. *)
Theorem escape_markdown_one_pass (text : list Z) :
  escape_markdown text = flat_map escape_char text
  /\ List.length (escape_markdown text)
     = (List.length text + List.length (List.filter is_special text))%nat.
Proof.
  pose proof (escape_markdown_pass text) as E.
  split; [exact E |]. rewrite E. clear E.
  induction text as [| c rest IH]; [reflexivity |].
  simpl. rewrite length_app, IH. unfold escape_char.
  destruct (is_special c); simpl; lia.
Qed.

Lemma flat_map_escape_preceded text :
  forall pre c post,
    flat_map escape_char text = (pre ++ c :: post)%list -> is_special c = true ->
    exists pre', pre = (pre' ++ [ord "\"])%list.
Proof.
  induction text as [| d rest IH]; intros pre c post E Hc.
  - destruct pre; discriminate E.
  - simpl in E. unfold escape_char at 1 in E. destruct (is_special d) eqn:Hd.
    + destruct pre as [| p0 [| p1 pre]]; simpl in E.
      * injection E as <- _. discriminate Hc.
      * injection E as <- _ _. exists []. reflexivity.
      * injection E as <- <- E. destruct (IH pre c post E Hc) as [pre' ->].
        exists (ord "\" :: d :: pre'). reflexivity.
    + destruct pre as [| p0 pre]; simpl in E.
      * injection E as <- _. congruence.
      * injection E as <- E. destruct (IH pre c post E Hc) as [pre' ->].
        exists (d :: pre'). reflexivity.
Qed.

(** X19. In the text [escape_markdown] returns, every special character has
    a backslash right before it, wherever it stands. *)
Theorem escape_markdown_specials_escaped (text pre post : list Z) (c : Z) :
  escape_markdown text = (pre ++ c :: post)%list -> is_special c = true ->
  exists pre', pre = (pre' ++ [ord "\"])%list.
Proof.
  intros E Hc. rewrite escape_markdown_pass in E.
  apply (flat_map_escape_preceded text pre c post E Hc).
Qed.

Lemma escape_markdown_specials_escaped_witness :
  exists pre', text_of "a\" = (pre' ++ [ord "\"])%list.
Proof.
  apply (escape_markdown_specials_escaped (text_of "a_b") (text_of "a\") (text_of "b")
           (ord "_")); reflexivity.
Defined.

(** *** [truncate_by_sentences] *)







Example truncate_by_sentences_examples :
  truncate_by_sentences (text_of "One. Two three four") 12 = text_of "One."
  /\ truncate_by_sentences (text_of "aaaa bbbb cccc dddd") 12 = text_of "aaaa bbbb..."
  /\ truncate_by_sentences (text_of "aaaa bbbbbbbbbbbbbb") 12 = text_of "aaaa bbbbbbb..."
  /\ truncate_by_sentences (text_of "short") 12 = text_of "short".
Proof. repeat split; vm_compute; reflexivity. Qed.

End TextFacts.

(** ** Users and the [/news] command *)

Section UserFacts.
Import Datetime Users.

(** X21. [add_user] stores a user whose [telegram_id] fits 64 bits and is
    not in the table, and returns its id; a second [add_user] with the same
    [telegram_id], whatever the name and settings, returns [None] and leaves
    the table as it was.  A [telegram_id] that does not fit 64 bits makes
    [add_user] raise OverflowError, which it does not catch; the table is
    left as it was. *)
Theorem add_user_twice (db : UserTable) (u1 u2 : User) :
  (- 2 ^ 63 <= telegram_id u1 < 2 ^ 63 -> created_at u1 <> None ->
   existsb (fun r => urow_telegram_id r =? telegram_id u1) (users_table db) = false ->
   telegram_id u2 = telegram_id u1 ->
   exists db1,
     add_user db u1 = (Ok (Some (users_seq db + 1)), db1)
     /\ add_user db1 u2 = (Ok None, db1))
  /\ (telegram_id u1 < - 2 ^ 63 \/ 2 ^ 63 <= telegram_id u1 ->
      add_user db u1 = (Raise OverflowError, db))
  /\ (forall clock t n c s i, created_at (User_init clock t n c s i) <> None).
Proof.
  split; [| split].
  - intros Hr Hc Hfresh Hsame. unfold add_user, insert_user.
    destruct (Z.ltb_spec (telegram_id u1) (- 2 ^ 63)); [lia |].
    destruct (Z.leb_spec (2 ^ 63) (telegram_id u1)); [lia |].
    destruct (created_at u1) as [created |]; [| congruence].
    rewrite Hfresh. simpl. eexists. split; [reflexivity |].
    rewrite Hsame.
    destruct (Z.ltb_spec (telegram_id u1) (- 2 ^ 63)); [lia |].
    destruct (Z.leb_spec (2 ^ 63) (telegram_id u1)); [lia |].
    simpl. rewrite existsb_app. simpl. rewrite Z.eqb_refl, orb_true_r.
    destruct (created_at u2); reflexivity.
  - intros Hr. unfold add_user, insert_user.
    destruct (Z.ltb_spec (telegram_id u1) (- 2 ^ 63)),
      (Z.leb_spec (2 ^ 63) (telegram_id u1)); try lia; reflexivity.
  - intros. unfold User_init. destruct c; simpl; discriminate.
Qed.

Lemma add_user_twice_witness :
  exists db1,
    add_user empty_users (User_init 5 42 (Some "ann") None None None)
    = (Ok (Some 1), db1)
    /\ add_user db1 (User_init 9 42 (Some "bob") None (Some "{}") None) = (Ok None, db1).
Proof.
  destruct (add_user_twice empty_users (User_init 5 42 (Some "ann") None None None)
              (User_init 9 42 (Some "bob") None (Some "{}") None)) as [H _].
  apply H.
  - simpl. lia.
  - discriminate.
  - reflexivity.
  - reflexivity.
Defined.

End UserFacts.

Section HandlerFacts.
Import PyStr Handlers TextNotions.
Variable py_int : list Z -> result Z.

(** X22. The number of news [/news] sends is always between 1 and 20: it is
    DEFAULT_NEWS_COUNT, 4, when the message holds no second word, and the
    second word read as an integer and brought into the range 1 to 20
    otherwise; the only error is the ValueError of a second word that is not
    an integer. *)
Theorem cmd_news_count_range (text : list Z) :
  match cmd_news_count py_int text with
  | Ok count =>
      1 <= count <= 20
      /\ ((List.length (split text) < 2)%nat -> count = DEFAULT_NEWS_COUNT)
      /\ (forall command arg rest n,
             split text = command :: arg :: rest -> py_int arg = Ok n ->
             count = Z.max 1 (Z.min n 20)
             /\ (1 <= n <= 20 -> count = n))
  | Raise e => exists command arg rest, split text = command :: arg :: rest
                                        /\ py_int arg = Raise e
  end.
Proof.
  unfold cmd_news_count. destruct (split text) as [| command [| arg rest]]; simpl.
  - split; [unfold DEFAULT_NEWS_COUNT; lia |]. split; [reflexivity | discriminate].
  - split; [unfold DEFAULT_NEWS_COUNT; lia |]. split; [reflexivity | discriminate].
  - destruct (py_int arg) as [n |] eqn:E; simpl.
    + split; [lia |]. split; [lia |].
      intros command' arg' rest' n' H Hn. injection H as <- <- <-.
      rewrite E in Hn. injection Hn as <-. split; [reflexivity | lia].
    + eauto.
Qed.

End HandlerFacts.
